(** * golang-stress-test: the request-dispatch and report-aggregation engine

    A shallow embedding of [stresstest/stresstest.go]: the [StressReport]
    accumulator, [updateReport], [runRequest], the worker partitioning of
    [run] and its finalization, and [Run].

    Conventions.
    - Go's [int] and [int64] (both 64-bit on the linux/amd64 target the
      Dockerfile builds for) are [Z] with the two's-complement wrap-around
      written out by [wrap64].
    - Go's [float64] is Rocq's primitive binary64 [float].
    - [map[int]int] is [gmap Z Z].
    - A panic is an explicit result; the report reached when the panic is
      raised stays observable, as it does in the Go heap.
    - [http.NewRequest] is a parameter of the development (class [HTTP]):
      the call panics with its error when it refuses the method or URL.
    - Goroutines interleave at the granularity of one [runRequest] call:
      the only shared writes happen in [updateReport] under [s.mu], so an
      execution is a sequence of such calls, one per scheduled worker. *)

From Stdlib Require Import ZArith Lia Bool.
From Stdlib Require Import Floats.PrimFloat Floats.SpecFloat Floats.FloatOps.
From stdpp Require Import gmap strings list fin_maps.

Local Open Scope Z_scope.

(* ===================================================================== *)
(** ** Machine integers and floats *)
(* ===================================================================== *)

Definition min_int : Z := - 2 ^ 63.
Definition max_int : Z := 2 ^ 63 - 1.

(** Two's-complement reduction of an integer result to 64 bits. *)
Definition wrap64 (z : Z) : Z := (z + 2 ^ 63) mod 2 ^ 64 - 2 ^ 63.

Definition is_int (z : Z) : Prop := min_int <= z <= max_int.

(** [x++] on an [int]. *)
Definition incr (z : Z) : Z := wrap64 (z + 1).

(** [float64(z)]: conversion rounds to nearest, ties to even. *)
Definition float64 (z : Z) : float :=
  SF2Prim (binary_normalize prec emax z 0 false).

(* ===================================================================== *)
(** ** Strings: [strings.Contains] *)
(* ===================================================================== *)

Fixpoint HasPrefix (s p : string) {struct p} : bool :=
  match p with
  | EmptyString => true
  | String c p' =>
      match s with
      | EmptyString => false
      | String d s' => if Ascii.eqb c d then HasPrefix s' p' else false
      end
  end.

Fixpoint Contains (s substr : string) : bool :=
  HasPrefix s substr
  || match s with
     | EmptyString => false
     | String _ s' => Contains s' substr
     end.

(* ===================================================================== *)
(** ** What the HTTP client hands back *)
(* ===================================================================== *)

(** The part of [*http.Response] the program reads. *)
Record Response := { StatusCode : Z }.

(** A Go [error] as [http.Client.Do] returns it (a [*url.Error]):
    [Error()] is its message, [Timeout()] is the method by which the
    [net/http] package reports that the failure was a timeout. The program
    only ever calls [Error()]. *)
Record error := { Error : string; Timeout : bool }.

(** [http.ErrHandlerTimeout.Error()], a constant of Go's [net/http]: the
    error a server-side [http.TimeoutHandler] gives to a handler that
    writes after its deadline. *)
Definition ErrHandlerTimeout_Error : string := "http: Handler timeout".

(* ===================================================================== *)
(** ** The report *)
(* ===================================================================== *)

Record StressReport := {
  Requests            : Z;
  Failed              : Z;
  Succeeded           : Z;
  TimedOut            : Z;
  TotalTime           : float;
  AverageTime         : float;
  FastestTime         : Z;
  SlowestTime         : Z;
  PercentageSucceeded : float;
  PercentageFailed    : float;
  PercentageTimedOut  : float;
  StatusRequests      : gmap Z Z
}.

Definition NewStressReport : StressReport :=
  {| Requests := 0; Failed := 0; Succeeded := 0; TimedOut := 0;
     TotalTime := PrimFloat.zero; AverageTime := PrimFloat.zero;
     FastestTime := 0; SlowestTime := 0;
     PercentageSucceeded := PrimFloat.zero;
     PercentageFailed := PrimFloat.zero;
     PercentageTimedOut := PrimFloat.zero;
     StatusRequests := ∅ |}.

Record Stress := {
  URL         : string;
  Method      : string;
  Concurrency : Z;
  sRequests   : Z;   (* field [Requests] of [Stress] *)
  sTimeout    : Z;   (* field [Timeout] of [Stress] *)
  Verbose     : bool;
  Report      : StressReport;
  VerifyTls   : bool
}.

Definition NewStress (url method : string) (concurrency requests timeout : Z)
    (verifyTls verbose : bool) : Stress :=
  {| URL := url; Method := method; Concurrency := concurrency;
     sRequests := requests; sTimeout := timeout; Verbose := verbose;
     Report := NewStressReport; VerifyTls := verifyTls |}.

(* ===================================================================== *)
(** ** Panics and the report-state monad *)
(* ===================================================================== *)

Inductive panic :=
| NilDereference                (* invalid memory address or nil pointer dereference *)
| DivideByZero                  (* integer divide by zero *)
| PanicError (e : error).       (* [panic(err)] *)

Inductive result (A : Type) :=
| Ok (a : A)
| Panicked (p : panic).
Arguments Ok {A} a.
Arguments Panicked {A} p.

(** A computation over the shared report: it ends normally or panics, and
    either way leaves a report behind. *)
Definition M (A : Type) : Type := StressReport → result A * StressReport.

Definition ret {A} (a : A) : M A := λ r, (Ok a, r).
Definition raise {A} (p : panic) : M A := λ r, (Panicked p, r).
Definition bind {A B} (m : M A) (k : A → M B) : M B :=
  λ r, match m r with
       | (Ok a, r') => k a r'
       | (Panicked p, r') => (Panicked p, r')
       end.
Definition get : M StressReport := λ r, (Ok r, r).
Definition modify (f : StressReport → StressReport) : M unit := λ r, (Ok tt, f r).

Notation "'let*' x ':=' m 'in' k" := (bind m (λ x, k))
  (at level 10, x name, m at level 100, k at level 200, only parsing).
Notation "m ;;; k" := (bind m (λ _, k))
  (at level 100, right associativity, only parsing).

(** Reading a field through a possibly nil [*http.Response]. *)
Definition deref (res : option Response) : M Response :=
  match res with
  | Some x => ret x
  | None => raise NilDereference
  end.

(* Field updates. *)
Definition set_Requests (v : Z) (r : StressReport) : StressReport :=
  {| Requests := v; Failed := Failed r; Succeeded := Succeeded r;
     TimedOut := TimedOut r; TotalTime := TotalTime r;
     AverageTime := AverageTime r; FastestTime := FastestTime r;
     SlowestTime := SlowestTime r;
     PercentageSucceeded := PercentageSucceeded r;
     PercentageFailed := PercentageFailed r;
     PercentageTimedOut := PercentageTimedOut r;
     StatusRequests := StatusRequests r |}.
Definition set_Failed (v : Z) (r : StressReport) : StressReport :=
  {| Requests := Requests r; Failed := v; Succeeded := Succeeded r;
     TimedOut := TimedOut r; TotalTime := TotalTime r;
     AverageTime := AverageTime r; FastestTime := FastestTime r;
     SlowestTime := SlowestTime r;
     PercentageSucceeded := PercentageSucceeded r;
     PercentageFailed := PercentageFailed r;
     PercentageTimedOut := PercentageTimedOut r;
     StatusRequests := StatusRequests r |}.
Definition set_Succeeded (v : Z) (r : StressReport) : StressReport :=
  {| Requests := Requests r; Failed := Failed r; Succeeded := v;
     TimedOut := TimedOut r; TotalTime := TotalTime r;
     AverageTime := AverageTime r; FastestTime := FastestTime r;
     SlowestTime := SlowestTime r;
     PercentageSucceeded := PercentageSucceeded r;
     PercentageFailed := PercentageFailed r;
     PercentageTimedOut := PercentageTimedOut r;
     StatusRequests := StatusRequests r |}.
Definition set_TimedOut (v : Z) (r : StressReport) : StressReport :=
  {| Requests := Requests r; Failed := Failed r; Succeeded := Succeeded r;
     TimedOut := v; TotalTime := TotalTime r;
     AverageTime := AverageTime r; FastestTime := FastestTime r;
     SlowestTime := SlowestTime r;
     PercentageSucceeded := PercentageSucceeded r;
     PercentageFailed := PercentageFailed r;
     PercentageTimedOut := PercentageTimedOut r;
     StatusRequests := StatusRequests r |}.
Definition set_FastestTime (v : Z) (r : StressReport) : StressReport :=
  {| Requests := Requests r; Failed := Failed r; Succeeded := Succeeded r;
     TimedOut := TimedOut r; TotalTime := TotalTime r;
     AverageTime := AverageTime r; FastestTime := v;
     SlowestTime := SlowestTime r;
     PercentageSucceeded := PercentageSucceeded r;
     PercentageFailed := PercentageFailed r;
     PercentageTimedOut := PercentageTimedOut r;
     StatusRequests := StatusRequests r |}.
Definition set_SlowestTime (v : Z) (r : StressReport) : StressReport :=
  {| Requests := Requests r; Failed := Failed r; Succeeded := Succeeded r;
     TimedOut := TimedOut r; TotalTime := TotalTime r;
     AverageTime := AverageTime r; FastestTime := FastestTime r;
     SlowestTime := v;
     PercentageSucceeded := PercentageSucceeded r;
     PercentageFailed := PercentageFailed r;
     PercentageTimedOut := PercentageTimedOut r;
     StatusRequests := StatusRequests r |}.
Definition set_StatusRequests (v : gmap Z Z) (r : StressReport) : StressReport :=
  {| Requests := Requests r; Failed := Failed r; Succeeded := Succeeded r;
     TimedOut := TimedOut r; TotalTime := TotalTime r;
     AverageTime := AverageTime r; FastestTime := FastestTime r;
     SlowestTime := SlowestTime r;
     PercentageSucceeded := PercentageSucceeded r;
     PercentageFailed := PercentageFailed r;
     PercentageTimedOut := PercentageTimedOut r;
     StatusRequests := v |}.

(** [m[k]] on a [map[int]int]: the zero value when the key is absent. *)
Definition map_get (m : gmap Z Z) (k : Z) : Z := default 0 (m !! k).

(* ===================================================================== *)
(** ** [updateReport] (lines 170-204) *)
(* ===================================================================== *)

Definition when (b : bool) (m : M unit) : M unit := if b then m else ret tt.

Definition updateReport (res : option Response) (err : option error)
    (elapsed : Z) : M unit :=
  (* s.mu.Lock(); defer s.mu.Unlock() *)
  (match err with
   | Some e =>
       (* fmt.Println(err) *)
       (if Contains (Error e) "connection refused"
        then raise (PanicError e) else ret tt) ;;;
       when (bool_decide (Error e = ErrHandlerTimeout_Error))
            (modify (λ r, set_TimedOut (incr (TimedOut r)) r)) ;;;
       modify (λ r, set_Failed (incr (Failed r)) r)
   | None =>
       let* x := deref res in
       let code := StatusCode x in
       (if bool_decide (code ≠ 200)
        then modify (λ r, set_Failed (incr (Failed r)) r)
        else modify (λ r, set_Succeeded (incr (Succeeded r)) r)) ;;;
       let* r := get in
       when (bool_decide (StatusRequests r !! code = None))
            (modify (λ r, set_StatusRequests
                            (<[code := 0]> (StatusRequests r)) r)) ;;;
       modify (λ r, set_StatusRequests
                      (<[code := incr (map_get (StatusRequests r) code)]>
                         (StatusRequests r)) r)
   end) ;;;
  modify (λ r, set_Requests (incr (Requests r)) r) ;;;
  let* r := get in
  when ((elapsed <? FastestTime r) || (FastestTime r =? 0))
       (modify (set_FastestTime elapsed)) ;;;
  let* r := get in
  when (elapsed >? SlowestTime r)
       (modify (set_SlowestTime elapsed)).

(* ===================================================================== *)
(** ** [runRequest] (lines 141-168) *)
(* ===================================================================== *)

(** One answer of [client.Do] together with the wall-clock milliseconds
    measured around it. *)
Record attempt := {
  a_res     : option Response;
  a_err     : option error;
  a_elapsed : Z
}.

(** What the program calls from [net/http] before it reaches the network:
    [http.NewRequest(method, url, nil)], given by the error it returns
    (none when it accepts the method and the URL). The function belongs to
    Go's library, not to this repository, and is fixed for a run since the
    method and the URL are; everything below holds for every such
    function. *)
Class HTTP := { NewRequest : string → string → option error }.

Section Program.
Context {http : HTTP}.

(** The answer [a] of the network is consulted only when
    [http.NewRequest] has accepted the method and the URL; otherwise the
    call panics with the error of [http.NewRequest] (lines 153-156). *)
Definition runRequest (s : Stress) (concurrencyGroup : Z) (a : attempt) : M unit :=
  (match NewRequest (Method s) (URL s) with
   | Some e => raise (PanicError e)
   | None => ret tt
   end) ;;;
  when (Verbose s)
       ((* the line printed reads s.Report.Requests+1 and res.StatusCode *)
        let* x := deref (a_res a) in ret tt) ;;;
  updateReport (a_res a) (a_err a) (a_elapsed a).

(* ===================================================================== *)
(** ** [run] (lines 103-139): workers, scheduling, finalization *)
(* ===================================================================== *)

(** A goroutine started by [run]: the group number it passes to
    [runRequest], its loop counter and its loop bound. *)
Record worker := { w_group : Z; w_j : Z; w_bound : Z }.

(** Loop of lines 108-118, goroutine [i]:
    [for j := 0; j < s.Requests/s.Concurrency; j++ { s.runRequest(i + 1) }].
    The body of the spawning loop only runs when [0 < s.Concurrency], so
    the division inside the goroutine cannot trap. Go's [/] truncates. *)
Definition base_worker (s : Stress) (i : Z) : worker :=
  {| w_group := wrap64 (i + 1); w_j := 0;
     w_bound := wrap64 (sRequests s ÷ Concurrency s) |}.

(** Loop of lines 120-128, goroutine [i]: a single [s.runRequest(i + 1)]. *)
Definition extra_worker (i : Z) : worker :=
  {| w_group := wrap64 (i + 1); w_j := 0; w_bound := 1 |}.

(** The goroutines [run] starts. [s.Requests % s.Concurrency] is evaluated
    by the spawning goroutine itself and traps on a zero divisor; the first
    loop has started nothing in that case. Go's [%] is the remainder of the
    truncated division. *)
Definition spawn (s : Stress) : result (list worker) :=
  let base := base_worker s <$> seqZ 0 (Concurrency s) in
  if Concurrency s =? 0 then Panicked DivideByZero
  else Ok (base ++ (extra_worker <$> seqZ 0 (Z.rem (sRequests s) (Concurrency s)))).

Definition can_run (w : worker) : bool := w_j w <? w_bound w.

Definition advance (w : worker) : worker :=
  {| w_group := w_group w; w_j := incr (w_j w); w_bound := w_bound w |}.

(** Calls to [runRequest] a worker still has to make. *)
Definition pending (w : worker) : nat := Z.to_nat (w_bound w - w_j w).

Definition all_done (ws : list worker) : bool := forallb (λ w, negb (can_run w)) ws.

(** What the transport may hand back: a status code that is an [int] and
    a non-negative [int64] number of milliseconds. *)
Definition attempt_ok (a : attempt) : bool :=
  (0 <=? a_elapsed a) && (a_elapsed a <=? max_int)
  && match a_res a with
     | Some x => (min_int <=? StatusCode x) && (StatusCode x <=? max_int)
     | None => true
     end.

(** The process while [wg.Wait()] blocks: goroutines and the report they
    share, or the process brought down by a panic nobody recovers. *)
Inductive run_state :=
| Running (ws : list worker) (r : StressReport)
| Crashed (p : panic) (r : StressReport).

(** One scheduling event: which goroutine makes its next call, and what
    the network answers. *)
Definition event : Type := nat * attempt.

(** The scheduled goroutine performs one [runRequest]. [None]: the event
    cannot happen (no such goroutine, or its loop is over). *)
Definition step (s : Stress) (ws : list worker) (r : StressReport)
    (ev : event) : option run_state :=
  match ws !! ev.1 with
  | Some w =>
      if can_run w && attempt_ok ev.2 then
        Some (match runRequest s (w_group w) ev.2 r with
              | (Ok _, r') => Running (<[ev.1 := advance w]> ws) r'
              | (Panicked p, r') => Crashed p r'
              end)
      else None
  | None => None
  end.

(** An interleaving. A crashed process runs nothing further. *)
Fixpoint exec (s : Stress) (st : run_state) (tr : list event) : option run_state :=
  match tr with
  | [] => Some st
  | ev :: tr' =>
      match st with
      | Running ws r =>
          match step s ws r ev with
          | Some st' => exec s st' tr'
          | None => None
          end
      | Crashed _ _ => None
      end
  end.

(** Lines 131-137; [elapsed] is [time.Since(start).Milliseconds()]. *)
Definition finalize (elapsed : Z) (r : StressReport) : StressReport :=
  let total := float64 elapsed in
  let n := float64 (Requests r) in
  {| Requests := Requests r; Failed := Failed r; Succeeded := Succeeded r;
     TimedOut := TimedOut r;
     TotalTime := total;
     AverageTime := PrimFloat.div total n;
     FastestTime := FastestTime r; SlowestTime := SlowestTime r;
     PercentageSucceeded :=
       PrimFloat.mul (PrimFloat.div (float64 (Succeeded r)) n) (float64 100);
     PercentageFailed :=
       PrimFloat.mul (PrimFloat.div (float64 (Failed r)) n) (float64 100);
     PercentageTimedOut :=
       PrimFloat.mul (PrimFloat.div (float64 (TimedOut r)) n) (float64 100);
     StatusRequests := StatusRequests r |}.

(** [run] along the interleaving [tr], taking [elapsed] milliseconds.
    [None]: [tr] is not an execution of [run] (it schedules a goroutine
    that cannot run, goes on after a crash, or stops while [wg.Wait()]
    still blocks). *)
Definition run (s : Stress) (tr : list event) (elapsed : Z)
    : option (result unit * StressReport) :=
  match spawn s with
  | Panicked p =>
      match tr with
      | [] => Some (Panicked p, Report s)
      | _ :: _ => None
      end
  | Ok ws =>
      match exec s (Running ws (Report s)) tr with
      | Some (Running ws' r) =>
          if all_done ws' then Some (Ok tt, finalize elapsed r) else None
      | Some (Crashed p r) => Some (Panicked p, r)
      | None => None
      end
  end.

(** [Run] (lines 78-82): [s.run(); return nil]. *)
Definition Run (s : Stress) (tr : list event) (elapsed : Z)
    : option (result (option error) * StressReport) :=
  match run s tr elapsed with
  | Some (Ok _, r) => Some (Ok None, r)
  | Some (Panicked p, r) => Some (Panicked p, r)
  | None => None
  end.

(* ===================================================================== *)
(** ** Quantities the properties speak about *)
(* ===================================================================== *)

(** Sum of all histogram buckets. *)
Definition hist_total (m : gmap Z Z) : Z := map_fold (λ _ v acc, v + acc) 0 m.

(** Attempts of a trace that came back with a response and no error. *)
Definition answered (tr : list event) : list event :=
  filter (λ ev, a_err ev.2 = None) tr.

(** Requests assigned to a set of goroutines. *)
Definition assigned (ws : list worker) : nat := sum_list_with pending ws.

(** Merging a list of attempts one after the other, as any interleaving
    does under the mutex. *)
Fixpoint merge_all (attempts : list attempt) : M unit :=
  match attempts with
  | [] => ret tt
  | a :: rest => updateReport (a_res a) (a_err a) (a_elapsed a) ;;; merge_all rest
  end.

(** The two guarded assignments of lines 197-203. *)
Definition fastest_after (elapsed : Z) (r : StressReport) : Z :=
  if (elapsed <? FastestTime r) || (FastestTime r =? 0)
  then elapsed else FastestTime r.

Definition slowest_after (elapsed : Z) (r : StressReport) : Z :=
  if elapsed >? SlowestTime r then elapsed else SlowestTime r.

(** Contribution of one attempt to the number of answered ones. *)
Definition answered_one (err : option error) : Z :=
  match err with None => 1 | Some _ => 0 end.

(** The counters after [n] merges, [k] of them answered. *)
Record counted (r : StressReport) (n k : Z) : Prop := {
  cnt_requests  : Requests r = n;
  cnt_split     : Succeeded r + Failed r = n;
  cnt_succeeded : 0 <= Succeeded r;
  cnt_timedout  : 0 <= TimedOut r <= Failed r;
  cnt_hist      : hist_total (StatusRequests r) = k;
  cnt_buckets   : map_Forall (λ _ v, 0 <= v) (StatusRequests r);
  cnt_answered  : 0 <= k <= n
}.

(** Loop counter and bound of a goroutine are [int]s. *)
Definition worker_ok (w : worker) : Prop := is_int (w_j w) ∧ is_int (w_bound w).

(* ===================================================================== *)
(** ** Concrete answers of the network *)
(* ===================================================================== *)

(** The message of a [url.Error] is its operation, the quoted URL, a colon
    and the message of the error it wraps. Every error of [http.Client.Do]
    has this shape. *)
Definition quote : string := String (Ascii.ascii_of_nat 34) EmptyString.

Definition url_Error (op url inner : string) (timeout : bool) : error :=
  {| Error := op +:+ " " +:+ quote +:+ url +:+ quote +:+ ": " +:+ inner;
     Timeout := timeout |}.

Definition target : string := "http://localhost:8080".

(** The client's timeout expired. *)
Definition client_timeout : error :=
  url_Error "Get" target
    "context deadline exceeded (Client.Timeout exceeded while awaiting headers)"
    true.

(** Nothing listens on the port. *)
Definition refused : error :=
  url_Error "Get" target "dial tcp 127.0.0.1:8080: connect: connection refused"
    false.

(** The server closed the connection without answering. *)
Definition closed : error := url_Error "Get" target "EOF" false.

Definition responds (code elapsed : Z) : attempt :=
  {| a_res := Some {| StatusCode := code |}; a_err := None; a_elapsed := elapsed |}.

Definition fails (e : error) (elapsed : Z) : attempt :=
  {| a_res := None; a_err := Some e; a_elapsed := elapsed |}.

(** The report a run leaves, whether it returns or aborts. *)
Definition report_of {A} (o : option (result A * StressReport)) : StressReport :=
  match o with
  | Some (_, r) => r
  | None => NewStressReport
  end.

(** The interleaving in which the goroutines run to their end one after
    the other, every attempt getting the answer [a]; [i] is the index of
    the first goroutine of [ws]. *)
Fixpoint sequential (i : nat) (ws : list worker) (a : attempt) : list event :=
  match ws with
  | [] => []
  | w :: ws' => replicate (pending w) (i, a) ++ sequential (S i) ws' a
  end.

(* ===================================================================== *)
(** ** Tallies over the attempts of a run *)
(* ===================================================================== *)

(** How many elements of a list pass a test. *)
Fixpoint tally {A} (f : A → bool) (l : list A) : Z :=
  match l with
  | [] => 0
  | a :: l' => (if f a then 1 else 0) + tally f l'
  end.

(** The attempt comes back without error and with status [c]: the merge
    takes the branch of lines 183-193 and writes bucket [c]. *)
Definition has_status (c : Z) (a : attempt) : bool :=
  match a_err a, a_res a with
  | None, Some x => StatusCode x =? c
  | _, _ => false
  end.

(** The error message is the one line 179 compares with. *)
Definition handler_timeout (a : attempt) : bool :=
  match a_err a with
  | Some e => bool_decide (Error e = ErrHandlerTimeout_Error)
  | None => false
  end.

(** The report holds exactly the tallies of the attempts merged so far. *)
Record exact (r : StressReport) (seen : list attempt) : Prop := {
  ex_requests  : Requests r = Z.of_nat (length seen);
  ex_succeeded : Succeeded r = tally (has_status 200) seen;
  ex_failed    : Failed r = Z.of_nat (length seen) - tally (has_status 200) seen;
  ex_timedout  : TimedOut r = tally handler_timeout seen;
  ex_buckets   : ∀ c, StatusRequests r !! c =
                   if tally (has_status c) seen =? 0 then None
                   else Some (tally (has_status c) seen)
}.

(** The largest of the elapsed times, 0 when there is none. *)
Definition max_elapsed (attempts : list attempt) : Z :=
  foldr Z.max 0 (a_elapsed <$> attempts).

(** Calls goroutine [i] makes along a trace. *)
Definition calls_of (i : nat) (tr : list event) : Z :=
  tally (λ ev : event, Nat.eqb ev.1 i) tr.

(** Calls goroutine [i] of [ws] still has to make; none when there is
    no such goroutine. *)
Definition pending_at (ws : list worker) (i : nat) : nat :=
  match ws !! i with
  | Some w => pending w
  | None => 0%nat
  end.

(** The same load test with the verbose flag set to [b]. *)
Definition set_Verbose (b : bool) (s : Stress) : Stress :=
  {| URL := URL s; Method := Method s; Concurrency := Concurrency s;
     sRequests := sRequests s; sTimeout := sTimeout s; Verbose := b;
     Report := Report s; VerifyTls := VerifyTls s |}.

(** A load test of four requests by two workers, and one of its
    executions: three answers and one closed connection. *)
Definition demo : Stress := NewStress target "GET" 2 4 1 true false.

Definition demo_trace : list (nat * attempt) :=
  [(0%nat, responds 200 3); (1%nat, responds 500 2);
   (1%nat, fails closed 9); (0%nat, responds 200 7)].

(** The same attempts in another interleaving. *)
Definition demo_trace' : list (nat * attempt) :=
  [(1%nat, responds 500 2); (0%nat, responds 200 3);
   (0%nat, responds 200 7); (1%nat, fails closed 9)].

(** The load test object once a run has left the report [r] behind its
    [Report] pointer. *)
Definition set_Report (r : StressReport) (s : Stress) : Stress :=
  {| URL := URL s; Method := Method s; Concurrency := Concurrency s;
     sRequests := sRequests s; sTimeout := sTimeout s; Verbose := Verbose s;
     Report := r; VerifyTls := VerifyTls s |}.

(** The errors [http.NewRequest] gives for a method that is not a token
    and for a URL without a scheme. *)
Definition method_error (method : string) : error :=
  {| Error := "net/http: invalid method " +:+ quote +:+ method +:+ quote;
     Timeout := false |}.

Definition parse_error (url : string) : error :=
  {| Error := "parse " +:+ quote +:+ url +:+ quote
              +:+ ": missing protocol scheme";
     Timeout := false |}.

(** An [http.NewRequest] to run the program on concrete inputs: like Go's
    it refuses a method with a space in it and a URL that starts with a
    colon; it accepts the methods and URLs used below. *)
Definition sample_HTTP : HTTP :=
  {| NewRequest method url :=
       if Contains method " " then Some (method_error method)
       else if HasPrefix url ":" then Some (parse_error url)
       else None |}.

(** Whether the two main percentages of a report add up to 100 within
    [tol], in float64. *)
Definition percentages_add_up (tol : float) (r : StressReport) : bool :=
  PrimFloat.leb
    (PrimFloat.abs
       (PrimFloat.sub
          (PrimFloat.add (PercentageSucceeded r) (PercentageFailed r))
          (float64 100)))
    tol.

(** The finalized report of a run that counted [succeeded] successes and
    [failed] failures. *)
Definition counted_report (succeeded failed : Z) : StressReport :=
  finalize 0
    (set_Requests (succeeded + failed)
       (set_Failed failed (set_Succeeded succeeded NewStressReport))).

(** [percentages_add_up tol] for every split of every request count from
    1 to [n]. *)
Definition add_up_to (tol : float) (n : Z) : bool :=
  forallb (λ total,
             forallb (λ succeeded,
                        percentages_add_up tol
                          (counted_report succeeded (total - succeeded)))
                     (seqZ 0 (total + 1)))
          (seqZ 1 n).

(** The error has the shape of the errors [http.Client.Do] returns. *)
Definition is_url_Error (e : error) : Prop :=
  ∃ op url inner t, e = url_Error op url inner t.

(* ===================================================================== *)
(** ** Machine arithmetic *)
(* ===================================================================== *)

Lemma wrap64_id z : is_int z → wrap64 z = z.
Proof.
  unfold is_int, min_int, max_int, wrap64. intros H.
  rewrite Z.mod_small; lia.
Qed.

Lemma wrap64_is_int z : is_int (wrap64 z).
Proof.
  unfold is_int, min_int, max_int, wrap64.
  pose proof (Z.mod_pos_bound (z + 2 ^ 63) (2 ^ 64)). lia.
Qed.

Lemma incr_below z : min_int <= z < max_int → incr z = z + 1.
Proof.
  intros H. unfold incr. apply wrap64_id. unfold is_int. lia.
Qed.

Lemma incr_max : incr max_int = min_int.
Proof. reflexivity. Qed.

Lemma incr_changes z : incr z ≠ z.
Proof.
  unfold incr, wrap64. intros H.
  assert (Hm : (z + 1 + 2 ^ 63) mod 2 ^ 64 = z + 2 ^ 63) by lia.
  pose proof (Z.mod_pos_bound (z + 1 + 2 ^ 63) (2 ^ 64)) as Hb.
  assert (Hs : (z + 2 ^ 63) mod 2 ^ 64 = z + 2 ^ 63)
    by (apply Z.mod_small; lia).
  assert (Hd : ((z + 2 ^ 63) + 1) mod 2 ^ 64 = (z + 2 ^ 63) mod 2 ^ 64)
    by (replace (z + 2 ^ 63 + 1) with (z + 1 + 2 ^ 63) by lia; lia).
  rewrite Z.add_mod in Hd by lia.
  rewrite Hs in Hd. rewrite (Z.mod_small 1) in Hd by lia.
  destruct (Z.eq_dec (z + 2 ^ 63 + 1) (2 ^ 64)) as [E|E].
  - rewrite E, Z.mod_same in Hd by lia. lia.
  - rewrite Z.mod_small in Hd by lia. lia.
Qed.

(* ===================================================================== *)
(** ** What one merge does to each field *)
(* ===================================================================== *)

Ltac run_monad :=
  unfold updateReport, runRequest, when, deref, bind, ret, raise, modify, get;
  simpl.

Ltac split_ifs :=
  repeat (simpl;
          match goal with
          | |- context [if ?b then _ else _] => destruct b eqn:?
          end);
  simpl.

(** The two updates of lines 189-192 amount to one write of the bucket. *)
Lemma bucket_created (m : gmap Z Z) (code : Z) :
  bool_decide (m !! code = None) = true →
  <[code := incr (map_get (<[code := 0]> m) code)]> (<[code := 0]> m)
  = <[code := incr (map_get m code)]> m.
Proof.
  intros Hc%bool_decide_eq_true_1.
  unfold map_get. rewrite lookup_insert_eq, Hc. simpl.
  apply insert_insert_eq.
Qed.

(** A response without error: the merge ends normally. *)
Lemma updateReport_response (x : Response) (elapsed : Z) (r : StressReport) :
  ∃ r', updateReport (Some x) None elapsed r = (Ok tt, r')
    ∧ Requests r' = incr (Requests r)
    ∧ Succeeded r' = (if bool_decide (StatusCode x ≠ 200)
                      then Succeeded r else incr (Succeeded r))
    ∧ Failed r' = (if bool_decide (StatusCode x ≠ 200)
                   then incr (Failed r) else Failed r)
    ∧ TimedOut r' = TimedOut r
    ∧ StatusRequests r' =
        <[StatusCode x := incr (map_get (StatusRequests r) (StatusCode x))]>
          (StatusRequests r)
    ∧ FastestTime r' = fastest_after elapsed r
    ∧ SlowestTime r' = slowest_after elapsed r.
Proof.
  unfold fastest_after, slowest_after. run_monad. split_ifs;
    (eexists; split; [reflexivity|]); simpl;
    rewrite ?bucket_created by assumption; auto 10.
Qed.

(** An error that is not a refused connection: the merge ends normally,
    whatever [res] is. *)
Lemma updateReport_error (res : option Response) (e : error) (elapsed : Z)
    (r : StressReport) :
  Contains (Error e) "connection refused" = false →
  ∃ r', updateReport res (Some e) elapsed r = (Ok tt, r')
    ∧ Requests r' = incr (Requests r)
    ∧ Succeeded r' = Succeeded r
    ∧ Failed r' = incr (Failed r)
    ∧ TimedOut r' = (if bool_decide (Error e = ErrHandlerTimeout_Error)
                     then incr (TimedOut r) else TimedOut r)
    ∧ StatusRequests r' = StatusRequests r
    ∧ FastestTime r' = fastest_after elapsed r
    ∧ SlowestTime r' = slowest_after elapsed r.
Proof.
  intros Hc. unfold fastest_after, slowest_after. run_monad. rewrite Hc.
  split_ifs; (eexists; split; [reflexivity|]); simpl; auto 10.
Qed.

(** A refused connection: [panic(err)] before any field is written. *)
Lemma updateReport_refused (res : option Response) (e : error) (elapsed : Z)
    (r : StressReport) :
  Contains (Error e) "connection refused" = true →
  updateReport res (Some e) elapsed r = (Panicked (PanicError e), r).
Proof. intros Hc. run_monad. rewrite Hc. reflexivity. Qed.

(** Neither a response nor an error: [res.StatusCode] traps. *)
Lemma updateReport_nil (elapsed : Z) (r : StressReport) :
  updateReport None None elapsed r = (Panicked NilDereference, r).
Proof. reflexivity. Qed.

(** The merge panics only in those two ways, and then leaves the report
    as it found it. *)
Lemma updateReport_panic res err elapsed r p r' :
  updateReport res err elapsed r = (Panicked p, r') →
  r' = r ∧ ((∃ e, err = Some e ∧ p = PanicError e
                  ∧ Contains (Error e) "connection refused" = true)
            ∨ (res = None ∧ err = None ∧ p = NilDereference)).
Proof.
  destruct err as [e|].
  - destruct (Contains (Error e) "connection refused") eqn:Hc.
    + rewrite updateReport_refused by done. intros [= <- <-]. eauto 10.
    + destruct (updateReport_error res e elapsed r Hc) as (r1 & -> & _).
      discriminate.
  - destruct res as [x|].
    + destruct (updateReport_response x elapsed r) as (r1 & -> & _).
      discriminate.
    + rewrite updateReport_nil. intros [= <- <-]. auto.
Qed.

(** [runRequest] is the merge, except that [http.NewRequest] may refuse
    the method or the URL, and that the verbose line reads
    [res.StatusCode] first. *)
Lemma runRequest_unfold s g a r :
  runRequest s g a r =
    match NewRequest (Method s) (URL s) with
    | Some e => (Panicked (PanicError e), r)
    | None =>
        match Verbose s, a_res a with
        | true, None => (Panicked NilDereference, r)
        | _, _ => updateReport (a_res a) (a_err a) (a_elapsed a) r
        end
    end.
Proof.
  unfold runRequest, when, deref, bind, ret, raise.
  destruct (NewRequest (Method s) (URL s)), (Verbose s), (a_res a);
    reflexivity.
Qed.

Lemma runRequest_ok s g a r r' :
  runRequest s g a r = (Ok tt, r') →
  updateReport (a_res a) (a_err a) (a_elapsed a) r = (Ok tt, r').
Proof.
  rewrite runRequest_unfold.
  destruct (NewRequest (Method s) (URL s)), (Verbose s), (a_res a);
    auto; discriminate.
Qed.

(** A call that returns went past [http.NewRequest]. *)
Lemma runRequest_ok_accepted s g a r r' :
  runRequest s g a r = (Ok tt, r') → NewRequest (Method s) (URL s) = None.
Proof.
  rewrite runRequest_unfold.
  destruct (NewRequest (Method s) (URL s)); [discriminate | done].
Qed.

Lemma runRequest_panic s g a r p r' :
  runRequest s g a r = (Panicked p, r') → r' = r.
Proof.
  rewrite runRequest_unfold.
  destruct (NewRequest (Method s) (URL s)), (Verbose s), (a_res a);
    intros H;
    solve [ by inversion H | by apply updateReport_panic in H as [-> _] ].
Qed.

(* ===================================================================== *)
(** ** The histogram total *)
(* ===================================================================== *)

Lemma hist_total_empty : hist_total ∅ = 0.
Proof. apply map_fold_empty. Qed.

Lemma hist_total_fresh (m : gmap Z Z) (c v : Z) :
  m !! c = None → hist_total (<[c := v]> m) = v + hist_total m.
Proof.
  intros Hc. unfold hist_total.
  rewrite map_fold_insert_L; [reflexivity | intros; lia | exact Hc].
Qed.

Lemma hist_total_lookup (m : gmap Z Z) (c v : Z) :
  m !! c = Some v → hist_total m = v + hist_total (delete c m).
Proof.
  intros Hc. unfold hist_total.
  rewrite (map_fold_delete_L _ _ c v m); [reflexivity | intros; lia | exact Hc].
Qed.

(** Writing a bucket replaces its old contribution to the total. *)
Lemma hist_total_insert (m : gmap Z Z) (c v : Z) :
  hist_total (<[c := v]> m) = hist_total m - map_get m c + v.
Proof.
  unfold map_get. destruct (m !! c) as [v0|] eqn:Hc; simpl.
  - rewrite <- insert_delete_eq.
    rewrite hist_total_fresh by apply lookup_delete_eq.
    rewrite (hist_total_lookup m c v0 Hc). lia.
  - rewrite hist_total_fresh by exact Hc. lia.
Qed.

Lemma hist_total_nonneg (m : gmap Z Z) :
  map_Forall (λ _ v, 0 <= v) m → 0 <= hist_total m.
Proof.
  induction m as [|c v m Hc IH] using map_ind.
  - rewrite hist_total_empty. lia.
  - intros H. apply map_Forall_insert in H as [Hv Hm]; [|exact Hc].
    rewrite hist_total_fresh by exact Hc. specialize (IH Hm). lia.
Qed.

(** No bucket exceeds the total when none is negative. *)
Lemma bucket_le_total (m : gmap Z Z) (c : Z) :
  map_Forall (λ _ v, 0 <= v) m → 0 <= map_get m c <= hist_total m.
Proof.
  intros Hm. unfold map_get. destruct (m !! c) as [v|] eqn:Hc; simpl.
  - rewrite (hist_total_lookup m c v Hc).
    pose proof (Hm c v Hc) as Hv. simpl in Hv.
    pose proof (hist_total_nonneg (delete c m) (map_Forall_delete _ _ c Hm)).
    lia.
  - split; [lia | by apply hist_total_nonneg].
Qed.

(* ===================================================================== *)
(** ** The counters along a sequence of merges *)
(* ===================================================================== *)

Lemma counted_new : counted NewStressReport 0 0.
Proof.
  split; simpl; try lia.
  - apply hist_total_empty.
  - apply map_Forall_empty.
Qed.

(** One merge that ends normally moves the counters from [n] to [n + 1]. *)
Lemma counted_merge res err elapsed r r' n k :
  counted r n k → n < max_int →
  updateReport res err elapsed r = (Ok tt, r') →
  counted r' (n + 1) (k + answered_one err).
Proof.
  intros [Hn Hs H0 Ht Hh Hb Hk] Hlt Hrun.
  assert (Hi : ∀ z, 0 <= z <= n → incr z = z + 1)
    by (intros z Hz; apply incr_below; unfold min_int, max_int in *; lia).
  destruct err as [e|]; simpl.
  - destruct (Contains (Error e) "connection refused") eqn:Hc.
    { rewrite updateReport_refused in Hrun by done. discriminate. }
    destruct (updateReport_error res e elapsed r Hc)
      as (r1 & E & Rq & Su & Fa & Ti & Hi' & _).
    rewrite E in Hrun. injection Hrun as <-.
    split; rewrite ?Rq, ?Su, ?Fa, ?Ti, ?Hi'; try done;
      rewrite ?(Hi (Requests r)), ?(Hi (Failed r)) by lia; try lia.
    case_bool_decide; [rewrite (Hi (TimedOut r)) by lia|]; lia.
  - destruct res as [x|]; [|rewrite updateReport_nil in Hrun; discriminate].
    destruct (updateReport_response x elapsed r)
      as (r1 & E & Rq & Su & Fa & Ti & Hi' & _).
    rewrite E in Hrun. injection Hrun as <-.
    pose proof (bucket_le_total (StatusRequests r) (StatusCode x) Hb) as Hbk.
    split; rewrite ?Rq, ?Su, ?Fa, ?Ti, ?Hi'; try done;
      rewrite ?(Hi (Requests r)) by lia; try lia.
    + case_bool_decide;
        [rewrite (Hi (Failed r)) by lia | rewrite (Hi (Succeeded r)) by lia]; lia.
    + case_bool_decide; [|rewrite (Hi (Succeeded r)) by lia]; lia.
    + case_bool_decide; [rewrite (Hi (Failed r)) by lia|]; lia.
    + rewrite hist_total_insert, Hi by lia. lia.
    + apply map_Forall_insert_2; [|done]. rewrite Hi by lia. lia.
Qed.

(* ===================================================================== *)
(** ** Goroutines and the requests they still owe *)
(* ===================================================================== *)

Lemma pending_advance w :
  worker_ok w → can_run w = true →
  worker_ok (advance w) ∧ (pending (advance w) + 1 = pending w)%nat.
Proof.
  unfold worker_ok, can_run, pending, advance, is_int. simpl.
  intros [Hj Hb] Hlt%Z.ltb_lt.
  rewrite incr_below by lia. lia.
Qed.

Lemma pending_done w : can_run w = false → pending w = 0%nat.
Proof. unfold can_run, pending. intros H%Z.ltb_ge. lia. Qed.

Lemma assigned_insert (ws : list worker) (i : nat) (w w' : worker) :
  ws !! i = Some w →
  (assigned (<[i := w']> ws) + pending w = assigned ws + pending w')%nat.
Proof.
  unfold assigned. revert i. induction ws as [|v ws IH]; intros [|i] Hi;
    simpl in *; try discriminate.
  - injection Hi as ->. lia.
  - specialize (IH i Hi). lia.
Qed.

Lemma assigned_all_done (ws : list worker) :
  all_done ws = true → assigned ws = 0%nat.
Proof.
  unfold all_done, assigned. induction ws as [|w ws IH]; simpl; [done|].
  intros [Hw Hws]%andb_true_iff. rewrite IH by done.
  rewrite pending_done; [done|]. by destruct (can_run w).
Qed.

(** The goroutines of a run never owe more requests than an [int] holds. *)
Lemma assigned_replicate_like (f : Z → worker) (p : nat) (l : list Z) :
  (∀ i, pending (f i) = p) →
  assigned (f <$> l) = (length l * p)%nat.
Proof.
  intros Hf. unfold assigned. induction l as [|i l IH]; [done|].
  rewrite fmap_cons.
  change (sum_list_with pending (f i :: (f <$> l)))
    with (pending (f i) + sum_list_with pending (f <$> l))%nat.
  rewrite IH, Hf. simpl. lia.
Qed.

Lemma assigned_app (ws1 ws2 : list worker) :
  assigned (ws1 ++ ws2) = (assigned ws1 + assigned ws2)%nat.
Proof. apply sum_list_with_app. Qed.

Lemma quot_rem_nonneg (a b : Z) :
  0 < b → 0 <= a → 0 <= a ÷ b <= a ∧ 0 <= Z.rem a b < b.
Proof.
  intros Hb Ha. rewrite Z.quot_div_nonneg, Z.rem_mod_nonneg by lia.
  pose proof (Z.div_mod a b). pose proof (Z.mod_pos_bound a b).
  assert (0 <= a / b) by (apply Z.div_pos; lia). nia.
Qed.

Lemma quot_rem_neg (a b : Z) :
  0 < b → a < 0 → a <= a ÷ b <= 0 ∧ Z.rem a b <= 0.
Proof.
  intros Hb Ha. destruct (quot_rem_nonneg (- a) b) as [H1 H2]; try lia.
  rewrite Z.quot_opp_l, Z.rem_opp_l in * by lia. lia.
Qed.

Lemma spawn_workers (s : Stress) :
  Concurrency s ≠ 0 →
  spawn s = Ok ((base_worker s <$> seqZ 0 (Concurrency s))
                ++ (extra_worker <$> seqZ 0 (Z.rem (sRequests s) (Concurrency s)))).
Proof.
  intros Hz. unfold spawn. by destruct (Z.eqb_spec (Concurrency s) 0).
Qed.

Lemma spawn_assigned (s : Stress) ws :
  is_int (Concurrency s) → is_int (sRequests s) →
  spawn s = Ok ws →
  Forall worker_ok ws
  ∧ assigned ws =
      (Z.to_nat (Concurrency s) * Z.to_nat (sRequests s ÷ Concurrency s)
       + Z.to_nat (Z.rem (sRequests s) (Concurrency s)))%nat
  ∧ Z.of_nat (assigned ws) <= max_int.
Proof.
  intros Hc Hr Hs.
  assert (Hz : Concurrency s ≠ 0).
  { intros E. unfold spawn in Hs. rewrite E in Hs. discriminate. }
  rewrite spawn_workers in Hs by done. injection Hs as <-.
  assert (Hw : Forall worker_ok
                 ((base_worker s <$> seqZ 0 (Concurrency s))
                  ++ (extra_worker <$> seqZ 0 (Z.rem (sRequests s) (Concurrency s))))).
  { apply Forall_app. split; apply Forall_fmap, Forall_forall; intros i _;
      unfold worker_ok; simpl; split;
      try apply wrap64_is_int; unfold is_int, min_int, max_int; lia. }
  assert (Ha : assigned
                 ((base_worker s <$> seqZ 0 (Concurrency s))
                  ++ (extra_worker <$> seqZ 0 (Z.rem (sRequests s) (Concurrency s))))
               = (Z.to_nat (Concurrency s)
                  * Z.to_nat (wrap64 (sRequests s ÷ Concurrency s))
                  + Z.to_nat (Z.rem (sRequests s) (Concurrency s)))%nat).
  { rewrite assigned_app.
    rewrite (assigned_replicate_like (base_worker s)
               (Z.to_nat (wrap64 (sRequests s ÷ Concurrency s)))).
    2:{ intros i. unfold pending. simpl. f_equal. lia. }
    rewrite (assigned_replicate_like extra_worker 1).
    2:{ intros i. reflexivity. }
    rewrite !length_seqZ. lia. }
  rewrite Ha. split; [done|].
  unfold is_int, min_int, max_int in *.
  destruct (Z.lt_ge_cases (Concurrency s) 0) as [Hneg|Hpos].
  - replace (Z.to_nat (Concurrency s)) with 0%nat by lia.
    pose proof (Z.rem_bound_abs (sRequests s) (Concurrency s) Hz).
    split; lia.
  - destruct (Z.lt_ge_cases (sRequests s) 0) as [Hn|Hp].
    + destruct (quot_rem_neg (sRequests s) (Concurrency s)) as [H1 H2];
        try lia.
      rewrite wrap64_id by (unfold is_int, min_int, max_int; lia).
      split; lia.
    + destruct (quot_rem_nonneg (sRequests s) (Concurrency s)) as [H1 H2];
        try lia.
      rewrite wrap64_id by (unfold is_int, min_int, max_int; lia).
      pose proof (Z.quot_rem' (sRequests s) (Concurrency s)).
      split; [done|]. nia.
Qed.

(* ===================================================================== *)
(** ** Executions *)
(* ===================================================================== *)

Lemma answered_cons (ev : event) (tr : list event) :
  Z.of_nat (length (answered (ev :: tr)))
  = answered_one (a_err ev.2) + Z.of_nat (length (answered tr)).
Proof.
  unfold answered. rewrite filter_cons. unfold answered_one.
  case_decide as Hn; simpl in *.
  - rewrite Hn, Nat2Z.inj_succ. unfold Z.succ. apply Z.add_comm.
  - by destruct (a_err ev.2).
Qed.

Lemma exec_crashed_stops s p r tr st :
  exec s (Crashed p r) tr = Some st → tr = [] ∧ st = Crashed p r.
Proof. destruct tr; simpl; [intros [= <-]; done | discriminate]. Qed.

(** What a scheduling event needs and what it yields. *)
Lemma step_inv s ws r ev st :
  step s ws r ev = Some st →
  ∃ w, ws !! ev.1 = Some w ∧ can_run w = true ∧ attempt_ok ev.2 = true
       ∧ ((∃ r', runRequest s (w_group w) ev.2 r = (Ok tt, r')
                 ∧ st = Running (<[ev.1 := advance w]> ws) r')
          ∨ (∃ p, runRequest s (w_group w) ev.2 r = (Panicked p, r)
                  ∧ st = Crashed p r)).
Proof.
  unfold step. destruct (ws !! ev.1) as [w|]; [|discriminate].
  destruct (can_run w) eqn:Hc; [|discriminate].
  destruct (attempt_ok ev.2) eqn:Ha; [|discriminate]. simpl.
  destruct (runRequest s (w_group w) ev.2 r) as [[[]|p] r'] eqn:Hr;
    intros [= <-]; exists w; repeat split; auto.
  - left. eauto.
  - right. apply runRequest_panic in Hr as Hr'. subst r'. eauto.
Qed.

(** While the process runs, the report counts exactly the calls made so
    far, and every call made is one the goroutines no longer owe. *)
Lemma exec_running s tr : ∀ ws r n k ws' r',
  counted r n k → Forall worker_ok ws →
  n + Z.of_nat (assigned ws) <= max_int →
  exec s (Running ws r) tr = Some (Running ws' r') →
  counted r' (n + Z.of_nat (length tr)) (k + Z.of_nat (length (answered tr)))
  ∧ Forall worker_ok ws'
  ∧ (assigned ws' + length tr = assigned ws)%nat.
Proof.
  induction tr as [|ev tr IH]; intros ws r n k ws' r' Hc Hw Hb Hex.
  - simpl in Hex. injection Hex as <- <-. simpl.
    rewrite !Z.add_0_r. auto with lia.
  - simpl in Hex. destruct (step s ws r ev) as [st|] eqn:Hst; [|discriminate].
    apply step_inv in Hst
      as (w & Hl & Hrun & _ & [(r1 & Hr & ->)|(p & _ & ->)]).
    2:{ apply exec_crashed_stops in Hex as [_ ?]. discriminate. }
    apply runRequest_ok in Hr.
    pose proof (Forall_lookup_1 _ _ _ _ Hw Hl) as Hwok.
    destruct (pending_advance w Hwok Hrun) as [Hw' Hp].
    pose proof (assigned_insert ws ev.1 w (advance w) Hl) as Hsum.
    assert (Hn : n < max_int) by lia.
    pose proof (counted_merge _ _ _ _ _ _ _ Hc Hn Hr) as Hc1.
    assert (Hb1 : n + 1 + Z.of_nat (assigned (<[ev.1 := advance w]> ws))
                  <= max_int) by lia.
    destruct (IH _ _ _ _ _ _ Hc1 (Forall_insert _ _ _ _ Hw Hw') Hb1 Hex)
      as (Hc2 & Hw2 & Hs2).
    rewrite answered_cons. simpl length.
    replace (n + Z.of_nat (S (length tr))) with (n + 1 + Z.of_nat (length tr))
      by lia.
    replace (k + (answered_one (a_err ev.2) + Z.of_nat (length (answered tr))))
      with (k + answered_one (a_err ev.2) + Z.of_nat (length (answered tr)))
      by lia.
    split; [exact Hc2 | split; [done | simpl; lia]].
Qed.

(** A crash is the last thing that happens, and the call that raised it
    left the report as the calls before it had made it. *)
Lemma exec_crashed s tr : ∀ ws r p r',
  exec s (Running ws r) tr = Some (Crashed p r') →
  ∃ tr0 ev ws0 w,
    tr = tr0 ++ [ev]
    ∧ exec s (Running ws r) tr0 = Some (Running ws0 r')
    ∧ ws0 !! ev.1 = Some w
    ∧ runRequest s (w_group w) ev.2 r' = (Panicked p, r').
Proof.
  induction tr as [|ev tr IH]; intros ws r p r' Hex; [discriminate|].
  simpl in Hex. destruct (step s ws r ev) as [st|] eqn:Hst; [|discriminate].
  pose proof Hst as Hst'.
  apply step_inv in Hst'
    as (w & Hl & _ & _ & [(r1 & Hr & ->)|(q & Hr & ->)]).
  - destruct (IH _ _ _ _ Hex) as (tr0 & ev0 & ws0 & w0 & -> & H0 & Hl0 & Hr0).
    exists (ev :: tr0), ev0, ws0, w0. repeat split; try done.
    simpl. by rewrite Hst.
  - apply exec_crashed_stops in Hex as [-> [= <- <-]].
    exists [], ev, ws, w. repeat split; done.
Qed.

(* ===================================================================== *)
(** ** Whole runs *)
(* ===================================================================== *)

Lemma counted_finalize elapsed r n k :
  counted r n k → counted (finalize elapsed r) n k.
Proof. intros [? ? ? ? ? ? ?]. split; assumption. Qed.

(** A run that returns went through a complete interleaving. *)
Lemma Run_returns s tr elapsed err final :
  Run s tr elapsed = Some (Ok err, final) →
  err = None
  ∧ ∃ ws ws' r,
      spawn s = Ok ws
      ∧ exec s (Running ws (Report s)) tr = Some (Running ws' r)
      ∧ all_done ws' = true
      ∧ final = finalize elapsed r.
Proof.
  unfold Run, run. destruct (spawn s) as [ws|p].
  - destruct (exec s (Running ws (Report s)) tr) as [[ws' r|p r]|] eqn:Hex;
      [|discriminate..].
    destruct (all_done ws') eqn:Hd; [|discriminate].
    intros [= <- <-]. split; [done|]. by exists ws, ws', r.
  - destruct tr; discriminate.
Qed.

(** A run that aborts either never started a goroutine (zero divisor) or
    crashed in a call to [runRequest]. *)
Lemma Run_aborts s tr elapsed p r :
  Run s tr elapsed = Some (Panicked p, r) →
  (spawn s = Panicked p ∧ tr = [] ∧ r = Report s)
  ∨ (∃ ws, spawn s = Ok ws
           ∧ exec s (Running ws (Report s)) tr = Some (Crashed p r)).
Proof.
  unfold Run, run. destruct (spawn s) as [ws|q].
  - destruct (exec s (Running ws (Report s)) tr) as [[ws' r'|q r']|] eqn:Hex;
      [|intros [= <- <-]; right; eauto|discriminate].
    destruct (all_done ws'); discriminate.
  - destruct tr; [|discriminate]. intros [= <- <-]. left. auto.
Qed.

(** The report of a run that returns, started on a fresh report. *)
Lemma Run_counted s tr elapsed err final :
  is_int (Concurrency s) → is_int (sRequests s) →
  Report s = NewStressReport →
  Run s tr elapsed = Some (Ok err, final) →
  counted final (Z.of_nat (length tr)) (Z.of_nat (length (answered tr)))
  ∧ ∃ ws, spawn s = Ok ws ∧ length tr = assigned ws.
Proof.
  intros Hc Hr Hnew (_ & ws & ws' & r & Hs & Hex & Hd & ->)%Run_returns.
  destruct (spawn_assigned s ws Hc Hr Hs) as (Hw & _ & Hb).
  rewrite Hnew in Hex.
  destruct (exec_running s tr ws NewStressReport 0 0 ws' r
              counted_new Hw ltac:(lia) Hex) as (Hcnt & _ & Hsum).
  rewrite !Z.add_0_l in Hcnt. split; [by apply counted_finalize|].
  exists ws. split; [done|]. rewrite (assigned_all_done ws' Hd) in Hsum. lia.
Qed.

(** A refused connection anywhere in an execution is its last event and
    crashes the process. *)
Lemma refused_crashes s tr : ∀ ws r st ev e,
  exec s (Running ws r) tr = Some st →
  ev ∈ tr → a_err ev.2 = Some e →
  Contains (Error e) "connection refused" = true →
  ∃ tr0 p r0 ws0,
    tr = tr0 ++ [ev] ∧ st = Crashed p r0
    ∧ exec s (Running ws r) tr0 = Some (Running ws0 r0).
Proof.
  induction tr as [|ev0 tr IH]; intros ws r st ev e Hex Hin He Hc.
  { by apply elem_of_nil in Hin. }
  simpl in Hex. destruct (step s ws r ev0) as [st1|] eqn:Hst; [|discriminate].
  pose proof Hst as Hst'.
  apply step_inv in Hst'
    as (w & Hl & _ & _ & [(r1 & Hr & ->)|(q & Hr & ->)]).
  - apply elem_of_cons in Hin as [->|Hin].
    + (* the refused attempt itself cannot end normally *)
      apply runRequest_ok in Hr. rewrite He in Hr.
      rewrite updateReport_refused in Hr by done. discriminate.
    + destruct (IH _ _ _ _ _ Hex Hin He Hc)
        as (tr0 & p & r0 & ws0 & -> & -> & H0).
      exists (ev0 :: tr0), p, r0, ws0. repeat split; try done.
      simpl. by rewrite Hst.
  - apply exec_crashed_stops in Hex as [-> ->].
    apply list_elem_of_singleton in Hin as ->.
    exists [], q, r, ws. repeat split; done.
Qed.

(** Every merge that ends normally counts the request, and counts it as
    succeeded or as failed, never both; the timed-out counter only moves
    together with the failed one. *)
Lemma merge_classifies res err elapsed r r' :
  updateReport res err elapsed r = (Ok tt, r') →
  Requests r' = incr (Requests r)
  ∧ ((Succeeded r' = incr (Succeeded r) ∧ Failed r' = Failed r
      ∧ TimedOut r' = TimedOut r)
     ∨ (Succeeded r' = Succeeded r ∧ Failed r' = incr (Failed r)
        ∧ (TimedOut r' = TimedOut r ∨ TimedOut r' = incr (TimedOut r)))).
Proof.
  intros Hrun. destruct err as [e|].
  - destruct (Contains (Error e) "connection refused") eqn:Hc.
    { rewrite updateReport_refused in Hrun by done. discriminate. }
    destruct (updateReport_error res e elapsed r Hc)
      as (r1 & E & Rq & Su & Fa & Ti & _).
    rewrite E in Hrun. injection Hrun as <-.
    split; [done|]. right. repeat split; try done.
    rewrite Ti. case_bool_decide; auto.
  - destruct res as [x|]; [|rewrite updateReport_nil in Hrun; discriminate].
    destruct (updateReport_response x elapsed r)
      as (r1 & E & Rq & Su & Fa & Ti & _).
    rewrite E in Hrun. injection Hrun as <-.
    split; [done|]. rewrite Su, Fa, Ti. case_bool_decide; auto.
Qed.

(* ===================================================================== *)
(** ** The properties of the specification *)
(* ===================================================================== *)

(** C1. For every run that returns, the report satisfies
    Succeeded + Failed = Requests, with Requests the number of calls made;
    TimedOut stays within Failed. Each merge increments Requests and
    exactly one of Succeeded and Failed, and TimedOut only together with
    Failed. *)
Theorem succeeded_plus_failed_is_requests s tr elapsed err final :
  is_int (Concurrency s) → is_int (sRequests s) →
  Report s = NewStressReport →
  Run s tr elapsed = Some (Ok err, final) →
  Succeeded final + Failed final = Requests final
  ∧ Requests final = Z.of_nat (length tr)
  ∧ 0 <= TimedOut final <= Failed final
  ∧ (∀ res e el r r',
       updateReport res e el r = (Ok tt, r') →
       Requests r' = incr (Requests r)
       ∧ ((Succeeded r' = incr (Succeeded r) ∧ Failed r' = Failed r
           ∧ TimedOut r' = TimedOut r)
          ∨ (Succeeded r' = Succeeded r ∧ Failed r' = incr (Failed r)
             ∧ (TimedOut r' = TimedOut r
                ∨ TimedOut r' = incr (TimedOut r))))).
Proof.
  intros Hc Hr Hnew Hrun.
  destruct (Run_counted s tr elapsed err final Hc Hr Hnew Hrun)
    as [[Hn Hs _ Ht _ _ _] _].
  split; [congruence|]. split; [exact Hn|]. split; [exact Ht|].
  intros. by eapply merge_classifies.
Qed.

(** C7, as stated, fails: a response with status 201 lies in the 2xx range
    and is counted as failed, not as succeeded. *)
Lemma status_201_is_counted_failed :
  let r' := (updateReport (Some {| StatusCode := 201 |}) None 5
               NewStressReport).2 in
  200 <= 201 <= 299 ∧ Succeeded r' = 0 ∧ Failed r' = 1.
Proof. vm_compute. repeat split; discriminate. Qed.

(** C7, amended. A request that reaches the transport is counted as failed
    exactly when its status code is not 200, or when it came back with an
    error that is not a refused connection; a response with status 200
    increments Succeeded and not Failed, every other status (201 and 204
    included) increments Failed and not Succeeded. *)
Theorem failed_iff_status_not_200 (x : Response) (elapsed : Z) (r : StressReport) :
  let out := updateReport (Some x) None elapsed r in
  out.1 = Ok tt
  ∧ (Failed out.2 = incr (Failed r) ↔ StatusCode x ≠ 200)
  ∧ (Succeeded out.2 = incr (Succeeded r) ↔ StatusCode x = 200)
  ∧ (StatusCode x = 200 → Failed out.2 = Failed r)
  ∧ (StatusCode x ≠ 200 → Succeeded out.2 = Succeeded r)
  ∧ (∀ res e, Contains (Error e) "connection refused" = false →
       let out' := updateReport res (Some e) elapsed r in
       out'.1 = Ok tt
       ∧ Failed out'.2 = incr (Failed r)
       ∧ Succeeded out'.2 = Succeeded r).
Proof.
  simpl. destruct (updateReport_response x elapsed r)
    as (r1 & -> & _ & Su & Fa & _). simpl. rewrite Su, Fa.
  split; [done|].
  pose proof (incr_changes (Failed r)). pose proof (incr_changes (Succeeded r)).
  split; [|split; [|split; [|split]]].
  - case_bool_decide; split; congruence.
  - case_bool_decide; split; try congruence.
  - intros E. by case_bool_decide.
  - intros E. by case_bool_decide.
  - intros res e Hc. destruct (updateReport_error res e elapsed r Hc)
      as (r2 & -> & _ & Su2 & Fa2 & _). done.
Qed.

(** C8. The histogram is written only by merges of attempts that came back
    with a status code: such a merge sets the bucket of its code to one
    more than before (one, when the code is new), a merge of an error
    leaves the histogram alone. For every run that returns, the buckets
    add up to the number of attempts that returned a status code. *)
Theorem histogram_sums_to_answered s tr elapsed err final :
  is_int (Concurrency s) → is_int (sRequests s) →
  Report s = NewStressReport →
  Run s tr elapsed = Some (Ok err, final) →
  hist_total (StatusRequests final) = Z.of_nat (length (answered tr))
  ∧ (∀ x el r,
       StatusRequests (updateReport (Some x) None el r).2
       = <[StatusCode x := incr (map_get (StatusRequests r) (StatusCode x))]>
           (StatusRequests r))
  ∧ (∀ x el r, StatusRequests r !! StatusCode x = None →
       StatusRequests (updateReport (Some x) None el r).2 !! StatusCode x
       = Some 1)
  ∧ (∀ res e el r r',
       updateReport res (Some e) el r = (Ok tt, r') →
       StatusRequests r' = StatusRequests r).
Proof.
  intros Hc Hr Hnew Hrun.
  destruct (Run_counted s tr elapsed err final Hc Hr Hnew Hrun)
    as [[_ _ _ _ Hh _ _] _].
  split; [exact Hh|].
  assert (Hw : ∀ x el r,
       StatusRequests (updateReport (Some x) None el r).2
       = <[StatusCode x := incr (map_get (StatusRequests r) (StatusCode x))]>
           (StatusRequests r)).
  { intros x el r. destruct (updateReport_response x el r)
      as (r1 & -> & _ & _ & _ & _ & Hi & _). exact Hi. }
  split; [exact Hw|]. split.
  - intros x el r Hnone. rewrite Hw, lookup_insert_eq.
    unfold map_get. rewrite Hnone. reflexivity.
  - intros res e el r r' Hm.
    destruct (Contains (Error e) "connection refused") eqn:Hcr.
    { rewrite updateReport_refused in Hm by done. discriminate. }
    destruct (updateReport_error res e el r Hcr)
      as (r1 & E & _ & _ & _ & _ & Hi & _).
    rewrite E in Hm. by injection Hm as <-.
Qed.


(** An execution of [Run] that made at least one call went through [exec]. *)
Lemma Run_exec s tr elapsed out :
  Run s tr elapsed = Some out → tr ≠ [] →
  ∃ ws st, spawn s = Ok ws
           ∧ exec s (Running ws (Report s)) tr = Some st
           ∧ (∀ p r, st = Crashed p r → out = (Panicked p, r)).
Proof.
  unfold Run, run. intros Hrun Hne. destruct (spawn s) as [ws|p].
  - destruct (exec s (Running ws (Report s)) tr) as [st|] eqn:Hex;
      [|discriminate].
    exists ws, st. repeat split; try done.
    intros p r ->. by injection Hrun as <-.
  - destruct tr; [done | discriminate].
Qed.



(** C10. Whenever [Run] returns, the error it returns is nil. A refused
    connection never comes back as an error value: an execution that
    meets one ends in a panic. *)
Theorem Run_returns_nil s tr elapsed :
  (∀ err final, Run s tr elapsed = Some (Ok err, final) → err = None)
  ∧ (∀ ev e out,
       ev ∈ tr → a_err ev.2 = Some e →
       Contains (Error e) "connection refused" = true →
       Run s tr elapsed = Some out →
       ∃ p r, out = (Panicked p, r)).
Proof.
  split.
  - intros err final Hrun. by apply Run_returns in Hrun as [-> _].
  - intros ev e out Hin He Hc Hrun.
    assert (Hne : tr ≠ []) by (intros ->; by apply elem_of_nil in Hin).
    destruct (Run_exec s tr elapsed out Hrun Hne) as (ws & st & _ & Hex & Hout).
    destruct (refused_crashes s tr ws (Report s) st ev e Hex Hin He Hc)
      as (tr0 & p & r0 & ws0 & _ & -> & _).
    exists p, r0. by apply Hout.
Qed.

(* ===================================================================== *)
(** ** Failed attempts, client errors and the extremes of a merge *)
(* ===================================================================== *)

(** Without the verbose line a failed attempt that is not a refused
    connection is recorded and the goroutine goes on. *)
Lemma quiet_failure_recorded s g a e r :
  NewRequest (Method s) (URL s) = None →
  Verbose s = false → a_err a = Some e →
  Contains (Error e) "connection refused" = false →
  ∃ r', runRequest s g a r = (Ok tt, r')
        ∧ Requests r' = incr (Requests r)
        ∧ Failed r' = incr (Failed r)
        ∧ Succeeded r' = Succeeded r.
Proof.
  intros Hnr Hv He Hc. rewrite runRequest_unfold, Hnr, Hv, He.
  destruct (updateReport_error (a_res a) e (a_elapsed a) r Hc)
    as (r' & E & Rq & Su & Fa & _).
  exists r'. by destruct (a_res a).
Qed.

(** With the verbose line every attempt without a response panics. *)
Lemma verbose_without_response_panics s g a r :
  NewRequest (Method s) (URL s) = None →
  Verbose s = true → a_res a = None →
  runRequest s g a r = (Panicked NilDereference, r).
Proof. intros Hnr Hv Hn. by rewrite runRequest_unfold, Hnr, Hv, Hn. Qed.

Lemma Contains_append_r (a b q : string) :
  Contains b q = true → Contains (a +:+ b) q = true.
Proof.
  intros Hb. induction a as [|c a IH]; simpl; [exact Hb|].
  rewrite IH. apply orb_true_r.
Qed.

Lemma url_Error_has_quote op url inner t :
  Contains (Error (url_Error op url inner t)) quote = true.
Proof.
  unfold url_Error. simpl Error.
  do 2 apply Contains_append_r.
  unfold quote. simpl. reflexivity.
Qed.

(** No error of the client carries the message the merge compares with. *)
Lemma url_Error_not_handler_timeout op url inner t :
  Error (url_Error op url inner t) ≠ ErrHandlerTimeout_Error.
Proof.
  intros E. pose proof (url_Error_has_quote op url inner t) as H.
  rewrite E in H. vm_compute in H. discriminate.
Qed.

(** Hence TimedOut never moves when the error comes from the client. *)
Lemma url_Error_leaves_TimedOut op url inner t res elapsed r :
  TimedOut (updateReport res (Some (url_Error op url inner t)) elapsed r).2
  = TimedOut r.
Proof.
  set (e := url_Error op url inner t).
  destruct (Contains (Error e) "connection refused") eqn:Hc.
  - by rewrite updateReport_refused.
  - destruct (updateReport_error res e elapsed r Hc)
      as (r' & -> & _ & _ & _ & Ti & _).
    simpl. rewrite Ti. rewrite bool_decide_eq_false_2; [done|].
    apply url_Error_not_handler_timeout.
Qed.

(** The extremes after a merge that ends normally. *)
Lemma updateReport_extremes res err elapsed r r' :
  updateReport res err elapsed r = (Ok tt, r') →
  FastestTime r' = fastest_after elapsed r
  ∧ SlowestTime r' = slowest_after elapsed r.
Proof.
  intros Hrun. destruct err as [e|].
  - destruct (Contains (Error e) "connection refused") eqn:Hc.
    { rewrite updateReport_refused in Hrun by done. discriminate. }
    destruct (updateReport_error res e elapsed r Hc)
      as (r1 & E & _ & _ & _ & _ & _ & Hf & Hs).
    rewrite E in Hrun. by injection Hrun as <-.
  - destruct res as [x|]; [|rewrite updateReport_nil in Hrun; discriminate].
    destruct (updateReport_response x elapsed r)
      as (r1 & E & _ & _ & _ & _ & _ & Hf & Hs).
    rewrite E in Hrun. by injection Hrun as <-.
Qed.

Lemma merge_all_cons a rest r r' :
  merge_all (a :: rest) r = (Ok tt, r') →
  ∃ r1, updateReport (a_res a) (a_err a) (a_elapsed a) r = (Ok tt, r1)
        ∧ merge_all rest r1 = (Ok tt, r').
Proof.
  simpl. unfold bind at 1.
  destruct (updateReport (a_res a) (a_err a) (a_elapsed a) r)
    as [[[]|p] r1]; [eauto | discriminate].
Qed.

(** SlowestTime bounds every merged time from above; FastestTime bounds
    them from below as long as no merged time is 0 ms. *)
Lemma merge_all_extremes attempts : ∀ r r',
  merge_all attempts r = (Ok tt, r') →
  SlowestTime r <= SlowestTime r'
  ∧ Forall (λ a, a_elapsed a <= SlowestTime r') attempts
  ∧ (Forall (λ a, 0 < a_elapsed a) attempts →
     (0 < FastestTime r →
        0 < FastestTime r' <= FastestTime r
        ∧ Forall (λ a, FastestTime r' <= a_elapsed a) attempts)
     ∧ (FastestTime r = 0 → attempts ≠ [] →
        0 < FastestTime r'
        ∧ Forall (λ a, FastestTime r' <= a_elapsed a) attempts)).
Proof.
  induction attempts as [|a rest IH]; intros r r' Hm.
  - injection Hm as <-. split; [lia|]. split; [constructor|].
    intros _. split; [intros; split; [lia | constructor] | done].
  - apply merge_all_cons in Hm as (r1 & Hu & Hm).
    apply updateReport_extremes in Hu as [Hf Hs].
    destruct (IH r1 r' Hm) as (Hs1 & Hall & Hfast).
    unfold fastest_after in Hf. unfold slowest_after in Hs.
    assert (Hsl : SlowestTime r <= SlowestTime r1 ∧ a_elapsed a <= SlowestTime r1).
    { rewrite Hs. destruct (Z.gtb_spec (a_elapsed a) (SlowestTime r)); lia. }
    split; [lia|]. split; [constructor; [lia | done]|].
    intros Hpos. apply Forall_cons in Hpos as [Ha Hrest].
    destruct (Hfast Hrest) as [Hpos1 _].
    split.
    + intros H0.
      assert (Hf1 : 0 < FastestTime r1 <= FastestTime r
                    ∧ FastestTime r1 <= a_elapsed a).
      { rewrite Hf. destruct (Z.ltb_spec (a_elapsed a) (FastestTime r));
          destruct (Z.eqb_spec (FastestTime r) 0); simpl; lia. }
      destruct (Hpos1 ltac:(lia)) as [Hb Hfa].
      split; [lia|]. constructor; [lia | done].
    + intros H0 _.
      assert (Hf1 : FastestTime r1 = a_elapsed a).
      { rewrite Hf, H0. simpl. by rewrite orb_true_r. }
      destruct (Hpos1 ltac:(lia)) as [Hb Hfa].
      split; [lia|]. constructor; [lia | done].
Qed.

(** From a fresh report, when no merged time is 0 ms. *)
Lemma extremes_without_zero attempts r' :
  attempts ≠ [] → Forall (λ a, 0 < a_elapsed a) attempts →
  merge_all attempts NewStressReport = (Ok tt, r') →
  Forall (λ a, FastestTime r' <= a_elapsed a <= SlowestTime r') attempts.
Proof.
  intros Hne Hpos Hm.
  destruct (merge_all_extremes attempts _ _ Hm) as (_ & Hs & Hf).
  destruct (Hf Hpos) as [_ H0]. destruct (H0 eq_refl Hne) as [_ Hfa].
  rewrite Forall_forall in *. intros a Ha.
  specialize (Hs a Ha). specialize (Hfa a Ha). simpl in *. lia.
Qed.

(** The report of an execution is the merge of its attempts in order. *)
Lemma exec_merge_all s tr : ∀ ws r ws' r',
  exec s (Running ws r) tr = Some (Running ws' r') →
  merge_all (snd <$> tr) r = (Ok tt, r').
Proof.
  induction tr as [|ev tr IH]; intros ws r ws' r' Hex.
  - by injection Hex as <- <-.
  - simpl in Hex. destruct (step s ws r ev) as [st|] eqn:Hst; [|discriminate].
    apply step_inv in Hst
      as (w & _ & _ & _ & [(r1 & Hr & ->)|(p & _ & ->)]).
    2:{ apply exec_crashed_stops in Hex as [_ ?]. discriminate. }
    apply runRequest_ok in Hr. rewrite fmap_cons. simpl. unfold bind at 1.
    rewrite Hr. by eapply IH.
Qed.

(** Hence, for a run that returns and saw no 0 ms attempt, the two extremes
    enclose every recorded time. *)
Lemma Run_extremes_without_zero s tr elapsed err final :
  Report s = NewStressReport → tr ≠ [] →
  Forall (λ ev : event, 0 < a_elapsed ev.2) tr →
  Run s tr elapsed = Some (Ok err, final) →
  Forall (λ ev : event, FastestTime final <= a_elapsed ev.2 <= SlowestTime final) tr.
Proof.
  intros Hnew Hne Hpos (_ & ws & ws' & r & _ & Hex & _ & ->)%Run_returns.
  rewrite Hnew in Hex. apply exec_merge_all in Hex.
  apply extremes_without_zero in Hex.
  - by apply Forall_fmap in Hex.
  - by destruct tr.
  - by apply Forall_fmap.
Qed.

(** A negative request count, which the [int] field admits, starts
    goroutines that make no call at all. *)
Lemma negative_requests_issue_nothing (s : Stress) ws :
  0 < Concurrency s → sRequests s < 0 →
  is_int (Concurrency s) → is_int (sRequests s) →
  spawn s = Ok ws → assigned ws = 0%nat.
Proof.
  intros Hc Hr Hci Hri Hs.
  destruct (spawn_assigned s ws Hci Hri Hs) as (_ & -> & _).
  destruct (quot_rem_neg (sRequests s) (Concurrency s) Hc Hr). lia.
Qed.

(** A zero concurrency makes [run] panic on the remainder before any
    goroutine exists. *)
Lemma zero_concurrency_panics (s : Stress) elapsed :
  Concurrency s = 0 →
  Run s [] elapsed = Some (Panicked DivideByZero, Report s).
Proof. intros Hz. unfold Run, run, spawn. by rewrite Hz. Qed.

(* ===================================================================== *)
(** ** Runs do return *)
(* ===================================================================== *)

Lemma exec_app s t1 : ∀ st t2,
  exec s st (t1 ++ t2)
  = match exec s st t1 with
    | Some st' => exec s st' t2
    | None => None
    end.
Proof.
  induction t1 as [|ev t1 IH]; intros st t2; [done|].
  simpl. destruct st as [ws r|p r]; [|done].
  destruct (step s ws r ev); [apply IH | done].
Qed.

Lemma runRequest_answered s g a x r :
  NewRequest (Method s) (URL s) = None →
  a_res a = Some x → a_err a = None →
  ∃ r', runRequest s g a r = (Ok tt, r').
Proof.
  intros Hnr Hres Herr. rewrite runRequest_unfold, Hnr, Hres, Herr.
  destruct (updateReport_response x (a_elapsed a) r) as (r' & E & _).
  exists r'. by destruct (Verbose s).
Qed.

(** A goroutine scheduled as often as it has calls to make ends its loop. *)
Lemma exec_one_worker s a x i :
  NewRequest (Method s) (URL s) = None →
  a_res a = Some x → a_err a = None → attempt_ok a = true →
  ∀ n w ws r,
    ws !! i = Some w → worker_ok w → pending w = n →
    ∃ w' r',
      exec s (Running ws r) (replicate n (i, a))
      = Some (Running (<[i := w']> ws) r')
      ∧ can_run w' = false.
Proof.
  intros Hnr Hres Herr Hok. induction n as [|n IH]; intros w ws r Hl Hw Hp.
  - exists w, r. simpl. rewrite list_insert_id by done. split; [done|].
    unfold can_run, pending in *. apply Z.ltb_ge. lia.
  - assert (Hrun : can_run w = true)
      by (unfold can_run, pending in *; apply Z.ltb_lt; lia).
    destruct (pending_advance w Hw Hrun) as [Hw' Hp'].
    destruct (runRequest_answered s (w_group w) a x r Hnr Hres Herr)
      as (r1 & Hr).
    assert (Hi : (i < length ws)%nat) by (by eapply lookup_lt_Some).
    destruct (IH (advance w) (<[i := advance w]> ws) r1) as (w' & r' & Hex & Hd).
    + by apply list_lookup_insert_eq.
    + done.
    + lia.
    + exists w', r'. split; [|done].
      simpl. unfold step. simpl. rewrite Hl, Hrun, Hok, Hr. simpl.
      rewrite Hex. by rewrite list_insert_insert_eq.
Qed.

Lemma exec_sequential s a x :
  NewRequest (Method s) (URL s) = None →
  a_res a = Some x → a_err a = None → attempt_ok a = true →
  ∀ ws pre r,
    Forall worker_ok ws → all_done pre = true →
    ∃ ws' r',
      exec s (Running (pre ++ ws) r) (sequential (length pre) ws a)
      = Some (Running ws' r')
      ∧ all_done ws' = true.
Proof.
  intros Hnr Hres Herr Hok.
  induction ws as [|w ws IH]; intros pre r Hw Hpre.
  - exists pre, r. by rewrite app_nil_r.
  - apply Forall_cons in Hw as [Hw Hws].
    destruct (exec_one_worker s a x (length pre) Hnr Hres Herr Hok
                (pending w) w (pre ++ w :: ws) r) as (w' & r1 & Hex & Hd).
    + by rewrite list_lookup_middle.
    + done.
    + done.
    + destruct (IH (pre ++ [w']) r1 Hws) as (ws' & r' & Hex' & Hd').
      { unfold all_done in *. rewrite forallb_app, Hpre. simpl. by rewrite Hd. }
      exists ws', r'. split; [|done].
      simpl. rewrite exec_app, Hex.
      rewrite insert_app_r_alt, Nat.sub_diag by done. simpl.
      rewrite length_app, Nat.add_1_r in Hex'. simpl in Hex'.
      by rewrite <- app_assoc in Hex'.
Qed.

(** Whatever the configuration, as long as the concurrency is not zero and
    [http.NewRequest] accepts the method and the URL, [Run] has an
    execution that returns: the one where the goroutines take turns and
    the server answers every request. *)
Lemma Run_can_return s elapsed code ms :
  NewRequest (Method s) (URL s) = None →
  is_int (Concurrency s) → is_int (sRequests s) → Concurrency s ≠ 0 →
  is_int code → 0 <= ms <= max_int →
  ∃ ws final,
    spawn s = Ok ws
    ∧ Run s (sequential 0 ws (responds code ms)) elapsed = Some (Ok None, final).
Proof.
  intros Hnr Hc Hr Hz Hcode Hms.
  pose proof (spawn_workers s Hz) as Hs.
  destruct (spawn_assigned s _ Hc Hr Hs) as (Hw & _).
  destruct (exec_sequential s (responds code ms) {| StatusCode := code |}
              Hnr eq_refl eq_refl) with (pre := @nil worker) (r := Report s)
              (ws := (base_worker s <$> seqZ 0 (Concurrency s))
                     ++ (extra_worker <$>
                           seqZ 0 (Z.rem (sRequests s) (Concurrency s))))
    as (ws' & r' & Hex & Hd); [| done | done |].
  { unfold attempt_ok, is_int in *. simpl.
    repeat (apply andb_true_iff; split); apply Z.leb_le; lia. }
  eexists _, (finalize elapsed r'). split; [exact Hs|].
  unfold Run, run. rewrite Hs. simpl in Hex. rewrite Hex, Hd. reflexivity.
Qed.

(* ===================================================================== *)
(** ** Tallies *)
(* ===================================================================== *)

Lemma tally_bounds {A} (f : A → bool) (l : list A) :
  0 <= tally f l <= Z.of_nat (length l).
Proof.
  induction l as [|a l IH]; simpl tally; simpl length; [lia|].
  destruct (f a); lia.
Qed.

Lemma tally_app {A} (f : A → bool) (l1 l2 : list A) :
  tally f (l1 ++ l2) = tally f l1 + tally f l2.
Proof.
  induction l1 as [|a l1 IH]; simpl; [done|]. rewrite IH. lia.
Qed.

Lemma tally_Permutation {A} (f : A → bool) (l1 l2 : list A) :
  l1 ≡ₚ l2 → tally f l1 = tally f l2.
Proof.
  induction 1 as [|a l1 l2 _ IH|a b l|l1 l2 l3 _ IH1 _ IH2]; simpl;
    [done | by rewrite IH | lia | congruence].
Qed.

Lemma tally_none {A} (f : A → bool) (l : list A) :
  Forall (λ a, f a = false) l → tally f l = 0.
Proof.
  induction 1 as [|a l Ha _ IH]; simpl; [done|]. by rewrite Ha, IH.
Qed.

Lemma tally_all {A} (f : A → bool) (l : list A) :
  Forall (λ a, f a = true) l → tally f l = Z.of_nat (length l).
Proof.
  induction 1 as [|a l Ha _ IH]; simpl tally; simpl length; [done|].
  rewrite Ha, IH. lia.
Qed.

Lemma tally_fmap {A B} (g : A → B) (f : B → bool) (l : list A) :
  tally f (g <$> l) = tally (λ a, f (g a)) l.
Proof.
  induction l as [|a l IH]; [done|].
  rewrite fmap_cons. simpl tally. by rewrite IH.
Qed.

(* ===================================================================== *)
(** ** The report as a tally of what was merged *)
(* ===================================================================== *)

Lemma exact_new : exact NewStressReport [].
Proof. split; done. Qed.

Lemma exact_finalize elapsed r seen :
  exact r seen → exact (finalize elapsed r) seen.
Proof. intros [? ? ? ? ?]. split; assumption. Qed.

(** One merge that ends normally adds the attempt to every tally. *)
Lemma exact_merge a r r1 seen :
  exact r seen → Z.of_nat (length seen) < max_int →
  updateReport (a_res a) (a_err a) (a_elapsed a) r = (Ok tt, r1) →
  exact r1 (seen ++ [a]).
Proof.
  intros [Hn Hs Hf Ht Hb] Hlt Hrun.
  pose proof (tally_bounds (has_status 200) seen) as B200.
  pose proof (tally_bounds handler_timeout seen) as Bto.
  assert (Hi : ∀ z, 0 <= z <= Z.of_nat (length seen) → incr z = z + 1)
    by (intros z Hz; apply incr_below; unfold min_int, max_int in *; lia).
  assert (Hlen : Z.of_nat (length (seen ++ [a])) = Z.of_nat (length seen) + 1)
    by (rewrite length_app; simpl; lia).
  destruct (a_err a) as [e|] eqn:He.
  - destruct (Contains (Error e) "connection refused") eqn:Hc.
    { rewrite updateReport_refused in Hrun by done. discriminate. }
    destruct (updateReport_error (a_res a) e (a_elapsed a) r Hc)
      as (r' & E & Rq & Su & Fa & Ti & Hi' & _).
    rewrite E in Hrun. injection Hrun as <-.
    assert (Hst : ∀ c, has_status c a = false)
      by (intros c; unfold has_status; by rewrite He).
    split; rewrite ?tally_app, ?Hlen; simpl tally; rewrite ?Hst.
    + rewrite Rq, Hn, Hi; lia.
    + rewrite Su, Hs. lia.
    + rewrite Fa, Hf, Hi; lia.
    + assert (Hto : handler_timeout a
                    = bool_decide (Error e = ErrHandlerTimeout_Error))
        by (unfold handler_timeout; by rewrite He).
      rewrite Ti, Ht, Hto. case_bool_decide; [rewrite Hi|]; lia.
    + intros c. rewrite Hi', Hb, tally_app. simpl. rewrite Hst.
      by rewrite !Z.add_0_r.
  - destruct (a_res a) as [x|] eqn:Hres;
      [|rewrite updateReport_nil in Hrun; discriminate].
    destruct (updateReport_response x (a_elapsed a) r)
      as (r' & E & Rq & Su & Fa & Ti & Hi' & _).
    rewrite E in Hrun. injection Hrun as <-.
    assert (Hst : ∀ c, has_status c a = (StatusCode x =? c))
      by (intros c; unfold has_status; by rewrite He, Hres).
    assert (Hto : handler_timeout a = false)
      by (unfold handler_timeout; by rewrite He).
    split; rewrite ?tally_app, ?Hlen; simpl tally; rewrite ?Hst, ?Hto.
    + rewrite Rq, Hn, Hi; lia.
    + rewrite Su, Hs. case_bool_decide as Hc.
      * rewrite (proj2 (Z.eqb_neq _ _) Hc). lia.
      * rewrite Hc, Hi by lia. simpl. lia.
    + rewrite Fa, Hf. case_bool_decide as Hc.
      * rewrite (proj2 (Z.eqb_neq _ _) Hc), Hi by lia. lia.
      * rewrite Hc. simpl. lia.
    + rewrite Ti, Ht. lia.
    + intros c. rewrite Hi', tally_app. simpl. rewrite Hst.
      pose proof (tally_bounds (has_status c) seen) as Bc.
      pose proof (tally_bounds (has_status (StatusCode x)) seen) as Bx.
      assert (Hget : map_get (StatusRequests r) (StatusCode x)
                     = tally (has_status (StatusCode x)) seen).
      { unfold map_get. rewrite Hb.
        destruct (Z.eqb_spec (tally (has_status (StatusCode x)) seen) 0);
          simpl; lia. }
      destruct (Z.eqb_spec (StatusCode x) c) as [Heq|Hne].
      * rewrite <- Heq. rewrite lookup_insert_eq, Hget, Hi by lia.
        destruct (Z.eqb_spec
                    (tally (has_status (StatusCode x)) seen + (1 + 0)) 0);
          [lia | f_equal; lia].
      * rewrite lookup_insert_ne, Hb by done. by rewrite !Z.add_0_r.
Qed.

(** A sequence of merges that ends normally adds all its attempts. *)
Lemma exact_merge_all attempts : ∀ r r' seen,
  exact r seen →
  Z.of_nat (length seen) + Z.of_nat (length attempts) <= max_int →
  merge_all attempts r = (Ok tt, r') →
  exact r' (seen ++ attempts).
Proof.
  induction attempts as [|a rest IH]; intros r r' seen Hex Hlen Hm.
  - injection Hm as <-. by rewrite app_nil_r.
  - apply merge_all_cons in Hm as (r1 & Hu & Hm). simpl length in Hlen.
    replace (seen ++ a :: rest) with ((seen ++ [a]) ++ rest)
      by (by rewrite <- app_assoc).
    apply (IH r1); [eapply exact_merge; eauto; lia | | done].
    rewrite length_app. simpl. lia.
Qed.

(** The report of a run that returns tallies the attempts of its trace. *)
Lemma Run_exact s tr elapsed err final :
  is_int (Concurrency s) → is_int (sRequests s) →
  Report s = NewStressReport →
  Run s tr elapsed = Some (Ok err, final) →
  exact final (snd <$> tr).
Proof.
  intros Hc Hr Hnew Hrun.
  destruct (Run_counted s tr elapsed err final Hc Hr Hnew Hrun)
    as [_ (ws & Hs & Hlen)].
  destruct (spawn_assigned s ws Hc Hr Hs) as (_ & _ & Hb).
  apply Run_returns in Hrun as (_ & ws0 & ws' & r & _ & Hex & _ & ->).
  rewrite Hnew in Hex. apply exec_merge_all in Hex.
  apply exact_finalize.
  assert (Hbound : Z.of_nat (length (@nil attempt))
                   + Z.of_nat (length (snd <$> tr)) <= max_int)
    by (unfold event in *; rewrite length_fmap, Hlen;
        change (length (@nil attempt)) with 0%nat; lia).
  exact (exact_merge_all _ NewStressReport r [] exact_new Hbound Hex).
Qed.

(* ===================================================================== *)
(** ** The two extremes *)
(* ===================================================================== *)

Lemma Forall_attempts (P : attempt → Prop) (tr : list (nat * attempt)) :
  Forall P (snd <$> tr) ↔ Forall (λ ev : nat * attempt, P ev.2) tr.
Proof.
  induction tr as [|ev tr IH]; [split; constructor|].
  rewrite fmap_cons, !Forall_cons, IH. reflexivity.
Qed.

Lemma max_elapsed_cons a rest :
  max_elapsed (a :: rest) = Z.max (a_elapsed a) (max_elapsed rest).
Proof. reflexivity. Qed.

Lemma max_elapsed_bounds attempts :
  0 <= max_elapsed attempts
  ∧ Forall (λ a, a_elapsed a <= max_elapsed attempts) attempts.
Proof.
  induction attempts as [|a rest [IH0 IH]].
  - split; [done | constructor].
  - rewrite max_elapsed_cons. split; [lia|].
    constructor; [lia|]. eapply Forall_impl; [exact IH|]. simpl. lia.
Qed.

Lemma max_elapsed_attained attempts :
  attempts ≠ [] → Forall (λ a, 0 <= a_elapsed a) attempts →
  ∃ a, a ∈ attempts ∧ max_elapsed attempts = a_elapsed a.
Proof.
  induction attempts as [|a rest IH]; [done|]. intros _ Hpos.
  apply Forall_cons in Hpos as [Ha Hrest]. rewrite max_elapsed_cons.
  destruct rest as [|b rest].
  - exists a. split; [apply elem_of_cons; by left|].
    unfold max_elapsed. simpl. lia.
  - destruct (IH ltac:(done) Hrest) as (c & Hc & Hm).
    destruct (Z.max_spec (a_elapsed a) (max_elapsed (b :: rest)))
      as [[_ ->]|[_ ->]].
    + exists c. split; [apply elem_of_cons; by right | done].
    + exists a. split; [apply elem_of_cons; by left | done].
Qed.

Lemma max_elapsed_Permutation l1 l2 :
  l1 ≡ₚ l2 → max_elapsed l1 = max_elapsed l2.
Proof.
  induction 1 as [|a l1 l2 _ IH|a b l|l1 l2 l3 _ IH1 _ IH2];
    rewrite ?max_elapsed_cons; [done | by rewrite IH | lia | congruence].
Qed.

(** SlowestTime is a running maximum. *)
Lemma merge_all_slowest attempts : ∀ r r',
  0 <= SlowestTime r →
  merge_all attempts r = (Ok tt, r') →
  SlowestTime r' = Z.max (SlowestTime r) (max_elapsed attempts).
Proof.
  induction attempts as [|a rest IH]; intros r r' H0 Hm.
  - injection Hm as <-. unfold max_elapsed. simpl. lia.
  - apply merge_all_cons in Hm as (r1 & Hu & Hm).
    apply updateReport_extremes in Hu as [_ Hs].
    assert (H1 : 0 <= SlowestTime r1).
    { rewrite Hs. unfold slowest_after.
      destruct (Z.gtb_spec (a_elapsed a) (SlowestTime r)); lia. }
    rewrite (IH _ _ H1 Hm), Hs, max_elapsed_cons. unfold slowest_after.
    destruct (Z.gtb_spec (a_elapsed a) (SlowestTime r)); lia.
Qed.

(** FastestTime only ever takes the value of a merged time. *)
Lemma merge_all_fastest_recorded attempts : ∀ r r',
  merge_all attempts r = (Ok tt, r') →
  FastestTime r' = FastestTime r
  ∨ ∃ a, a ∈ attempts ∧ FastestTime r' = a_elapsed a.
Proof.
  induction attempts as [|a rest IH]; intros r r' Hm.
  - injection Hm as <-. by left.
  - apply merge_all_cons in Hm as (r1 & Hu & Hm).
    apply updateReport_extremes in Hu as [Hf _].
    destruct (IH _ _ Hm) as [E|(b & Hb & E)].
    + rewrite E, Hf. unfold fastest_after.
      destruct ((a_elapsed a <? FastestTime r) || (FastestTime r =? 0));
        [right | by left].
      exists a. split; [apply elem_of_cons; by left | done].
    + right. exists b. split; [apply elem_of_cons; by right | done].
Qed.

(** From a report without a fastest time the first merge installs one. *)
Lemma merge_all_fastest_fresh attempts r r' :
  FastestTime r = 0 → attempts ≠ [] →
  merge_all attempts r = (Ok tt, r') →
  ∃ a, a ∈ attempts ∧ FastestTime r' = a_elapsed a.
Proof.
  intros H0 Hne Hm. destruct attempts as [|a rest]; [done|].
  apply merge_all_cons in Hm as (r1 & Hu & Hm).
  apply updateReport_extremes in Hu as [Hf _].
  assert (Hf1 : FastestTime r1 = a_elapsed a).
  { rewrite Hf. unfold fastest_after. rewrite H0. simpl.
    by rewrite orb_true_r. }
  destruct (merge_all_fastest_recorded _ _ _ Hm) as [E|(b & Hb & E)].
  - exists a. split; [apply elem_of_cons; by left | congruence].
  - exists b. split; [apply elem_of_cons; by right | done].
Qed.

(** Every event of an execution carries an answer the transport can give. *)
Lemma exec_attempts_ok s tr : ∀ ws r st,
  exec s (Running ws r) tr = Some st →
  Forall (λ ev : nat * attempt, attempt_ok ev.2 = true) tr.
Proof.
  induction tr as [|ev tr IH]; intros ws r st Hex; [constructor|].
  simpl in Hex. destruct (step s ws r ev) as [st1|] eqn:Hst; [|discriminate].
  apply step_inv in Hst as (w & _ & _ & Hok & [(r1 & _ & ->)|(p & _ & ->)]).
  - constructor; [done | by eapply IH].
  - apply exec_crashed_stops in Hex as [-> _]. by repeat constructor.
Qed.

Lemma attempt_ok_elapsed a : attempt_ok a = true → 0 <= a_elapsed a.
Proof.
  unfold attempt_ok. intros H.
  apply andb_true_iff in H as [H _]. apply andb_true_iff in H as [H _].
  by apply Z.leb_le.
Qed.

(** What a returning run was: its goroutines, the merge of its attempts in
    order, and attempts the transport can give. *)
Lemma Run_merge_all s tr elapsed err final :
  Report s = NewStressReport →
  Run s tr elapsed = Some (Ok err, final) →
  ∃ r, merge_all (snd <$> tr) NewStressReport = (Ok tt, r)
       ∧ final = finalize elapsed r
       ∧ Forall (λ a, 0 <= a_elapsed a) (snd <$> tr).
Proof.
  intros Hnew (_ & ws & ws' & r & _ & Hex & _ & ->)%Run_returns.
  rewrite Hnew in Hex. exists r. split; [by eapply exec_merge_all|].
  split; [done|]. apply Forall_fmap.
  eapply Forall_impl; [by eapply exec_attempts_ok|].
  intros ev. apply attempt_ok_elapsed.
Qed.

(** X1. The SlowestTime of a run that returns is the maximum of the elapsed
    times of its calls: no call took longer, and when a call was made one
    of them took exactly that long. *)
Theorem slowest_time_is_maximum s tr elapsed err final :
  Report s = NewStressReport →
  Run s tr elapsed = Some (Ok err, final) →
  SlowestTime final = max_elapsed (snd <$> tr)
  ∧ Forall (λ ev : nat * attempt, a_elapsed ev.2 <= SlowestTime final) tr
  ∧ (tr ≠ [] → ∃ ev, ev ∈ tr ∧ SlowestTime final = a_elapsed ev.2).
Proof.
  intros Hnew Hrun.
  destruct (Run_merge_all s tr elapsed err final Hnew Hrun)
    as (r & Hm & -> & Hpos).
  assert (Hs : SlowestTime (finalize elapsed r) = max_elapsed (snd <$> tr)).
  { simpl.
    rewrite (merge_all_slowest (snd <$> tr) NewStressReport r
               (Z.le_refl 0) Hm).
    simpl. pose proof (max_elapsed_bounds (snd <$> tr)). lia. }
  split; [exact Hs|]. rewrite Hs. split.
  - destruct (max_elapsed_bounds (snd <$> tr)) as [_ Hb].
    by apply Forall_attempts in Hb.
  - intros Hne.
    destruct (max_elapsed_attained (snd <$> tr)) as (a & Ha & E);
      [by destruct tr | done |].
    apply list_elem_of_fmap in Ha as (ev & -> & Hev). by exists ev.
Qed.

(** X2. When no call of a returning run took 0 ms, FastestTime is the
    minimum of the elapsed times: no call was faster, and one of them
    took exactly that long. *)
Theorem fastest_time_is_minimum_without_zero s tr elapsed err final :
  Report s = NewStressReport → tr ≠ [] →
  Forall (λ ev : nat * attempt, 0 < a_elapsed ev.2) tr →
  Run s tr elapsed = Some (Ok err, final) →
  Forall (λ ev : nat * attempt, FastestTime final <= a_elapsed ev.2) tr
  ∧ ∃ ev, ev ∈ tr ∧ FastestTime final = a_elapsed ev.2.
Proof.
  intros Hnew Hne Hpos Hrun.
  destruct (Run_merge_all s tr elapsed err final Hnew Hrun)
    as (r & Hm & -> & _).
  assert (Hne' : snd <$> tr ≠ []) by (by destruct tr).
  split.
  - apply (Forall_attempts (λ a, 0 < a_elapsed a)) in Hpos.
    pose proof (extremes_without_zero (snd <$> tr) r Hne' Hpos Hm) as Hb.
    apply Forall_attempts in Hb. eapply Forall_impl; [exact Hb|].
    simpl. intros ev. lia.
  - destruct (merge_all_fastest_fresh (snd <$> tr) NewStressReport r
                eq_refl Hne' Hm) as (a & Ha & E).
    apply list_elem_of_fmap in Ha as (ev & -> & Hev). by exists ev.
Qed.

(** X3. Whatever the elapsed times, the FastestTime of a returning run that
    made a call is the elapsed time of one of its calls, so it is never
    below the true minimum and never above SlowestTime. *)
Theorem fastest_time_is_a_recorded_time s tr elapsed err final :
  Report s = NewStressReport → tr ≠ [] →
  Run s tr elapsed = Some (Ok err, final) →
  (∃ ev, ev ∈ tr ∧ FastestTime final = a_elapsed ev.2)
  ∧ 0 <= FastestTime final <= SlowestTime final.
Proof.
  intros Hnew Hne Hrun.
  destruct (Run_merge_all s tr elapsed err final Hnew Hrun)
    as (r & Hm & -> & Hpos).
  assert (Hne' : snd <$> tr ≠ []) by (by destruct tr).
  destruct (merge_all_fastest_fresh (snd <$> tr) NewStressReport r
              eq_refl Hne' Hm) as (a & Ha & E).
  assert (Hs : SlowestTime r = max_elapsed (snd <$> tr)).
  { rewrite (merge_all_slowest (snd <$> tr) NewStressReport r
               (Z.le_refl 0) Hm).
    simpl. pose proof (max_elapsed_bounds (snd <$> tr)). lia. }
  destruct (max_elapsed_bounds (snd <$> tr)) as [_ Hb].
  rewrite Forall_forall in Hb, Hpos.
  specialize (Hb a Ha). specialize (Hpos a Ha). simpl in *.
  split; [|lia].
  apply list_elem_of_fmap in Ha as (ev & -> & Hev). by exists ev.
Qed.

Lemma Run_slowest s tr elapsed err final :
  Report s = NewStressReport →
  Run s tr elapsed = Some (Ok err, final) →
  SlowestTime final = max_elapsed (snd <$> tr).
Proof.
  intros Hnew Hrun.
  destruct (Run_merge_all s tr elapsed err final Hnew Hrun)
    as (r & Hm & -> & _).
  simpl.
  rewrite (merge_all_slowest (snd <$> tr) NewStressReport r (Z.le_refl 0) Hm).
  simpl. pose proof (max_elapsed_bounds (snd <$> tr)). lia.
Qed.

(* ===================================================================== *)
(** ** The counters and the histogram, exactly *)
(* ===================================================================== *)

(** X4. In the report of a run that returns, Succeeded is the number of
    calls answered with status 200, Failed the number of all other calls,
    and TimedOut the number of calls whose error message is the one of
    [http.ErrHandlerTimeout]. *)
Theorem counters_are_tallies s tr elapsed err final :
  is_int (Concurrency s) → is_int (sRequests s) →
  Report s = NewStressReport →
  Run s tr elapsed = Some (Ok err, final) →
  Succeeded final = tally (has_status 200) (snd <$> tr)
  ∧ Failed final = Z.of_nat (length tr) - tally (has_status 200) (snd <$> tr)
  ∧ TimedOut final = tally handler_timeout (snd <$> tr).
Proof.
  intros Hc Hr Hnew Hrun.
  destruct (Run_exact s tr elapsed err final Hc Hr Hnew Hrun)
    as [_ Hs Hf Ht _].
  rewrite length_fmap in Hf. auto.
Qed.

(** X5. In the report of a run that returns, the histogram has a bucket for
    a status code exactly when some call was answered with that code, and
    the bucket holds the number of those calls. *)
Theorem histogram_counts_each_status s tr elapsed err final (c : Z) :
  is_int (Concurrency s) → is_int (sRequests s) →
  Report s = NewStressReport →
  Run s tr elapsed = Some (Ok err, final) →
  (StatusRequests final !! c = None
     ↔ Forall (λ ev : nat * attempt, has_status c ev.2 = false) tr)
  ∧ (∀ n, StatusRequests final !! c = Some n →
          n = tally (has_status c) (snd <$> tr) ∧ 0 < n).
Proof.
  intros Hc Hr Hnew Hrun.
  destruct (Run_exact s tr elapsed err final Hc Hr Hnew Hrun)
    as [_ _ _ _ Hb].
  specialize (Hb c).
  pose proof (tally_bounds (has_status c) (snd <$> tr)) as Bc.
  destruct (Z.eqb_spec (tally (has_status c) (snd <$> tr)) 0) as [E|E];
    rewrite Hb; split.
  - split; [intros _|done].
    apply (Forall_attempts (λ a, has_status c a = false)).
    clear -E. induction (snd <$> tr) as [|a l IH]; [constructor|].
    simpl in E. pose proof (tally_bounds (has_status c) l).
    destruct (has_status c a) eqn:Ha; [lia|].
    constructor; [done | apply IH; lia].
  - discriminate.
  - split; [discriminate|]. intros Hall. exfalso. apply E.
    apply tally_none. by apply (Forall_attempts (λ a, has_status c a = false)).
  - intros n [= <-]. split; [done | lia].
Qed.

(** X6. The counters, the histogram and SlowestTime of a run that returns
    do not depend on the order in which the goroutines were scheduled:
    two returning runs whose calls got the same answers, in any order,
    leave the same Requests, Succeeded, Failed, TimedOut, histogram and
    SlowestTime. *)
Theorem counters_ignore_interleaving s1 s2 tr1 tr2 e1 e2 err1 err2 f1 f2 :
  is_int (Concurrency s1) → is_int (sRequests s1) →
  is_int (Concurrency s2) → is_int (sRequests s2) →
  Report s1 = NewStressReport → Report s2 = NewStressReport →
  Run s1 tr1 e1 = Some (Ok err1, f1) →
  Run s2 tr2 e2 = Some (Ok err2, f2) →
  snd <$> tr1 ≡ₚ snd <$> tr2 →
  Requests f1 = Requests f2
  ∧ Succeeded f1 = Succeeded f2
  ∧ Failed f1 = Failed f2
  ∧ TimedOut f1 = TimedOut f2
  ∧ StatusRequests f1 = StatusRequests f2
  ∧ SlowestTime f1 = SlowestTime f2.
Proof.
  intros Hc1 Hr1 Hc2 Hr2 Hn1 Hn2 Hrun1 Hrun2 Hp.
  destruct (Run_exact s1 tr1 e1 err1 f1 Hc1 Hr1 Hn1 Hrun1)
    as [Rq1 Su1 Fa1 Ti1 Hb1].
  destruct (Run_exact s2 tr2 e2 err2 f2 Hc2 Hr2 Hn2 Hrun2)
    as [Rq2 Su2 Fa2 Ti2 Hb2].
  pose proof (Run_slowest s1 tr1 e1 err1 f1 Hn1 Hrun1) as Sl1.
  pose proof (Run_slowest s2 tr2 e2 err2 f2 Hn2 Hrun2) as Sl2.
  assert (Hlen : length (snd <$> tr1) = length (snd <$> tr2))
    by (by apply Permutation_length).
  assert (Ht : ∀ f, tally f (snd <$> tr1) = tally f (snd <$> tr2))
    by (intros f; by apply tally_Permutation).
  repeat split.
  - congruence.
  - rewrite Su1, Su2. apply Ht.
  - rewrite Fa1, Fa2, Ht. congruence.
  - rewrite Ti1, Ti2. apply Ht.
  - apply map_eq. intros c. by rewrite Hb1, Hb2, Ht.
  - rewrite Sl1, Sl2. by apply max_elapsed_Permutation.
Qed.

Lemma url_Error_not_timeout_attempt a :
  (∀ e, a_err a = Some e → is_url_Error e) → handler_timeout a = false.
Proof.
  intros H. unfold handler_timeout. destruct (a_err a) as [e|]; [|done].
  destruct (H e eq_refl) as (op & url & inner & t & ->).
  apply bool_decide_eq_false_2, url_Error_not_handler_timeout.
Qed.

(** X7. When every error of a returning run has the shape of the errors
    [http.Client.Do] returns (operation, quoted URL, colon, cause), the
    report ends with TimedOut = 0, however many of the calls timed out. *)
Theorem client_errors_leave_TimedOut_zero s tr elapsed err final :
  is_int (Concurrency s) → is_int (sRequests s) →
  Report s = NewStressReport →
  Forall (λ ev : nat * attempt, ∀ e, a_err ev.2 = Some e → is_url_Error e) tr →
  Run s tr elapsed = Some (Ok err, final) →
  TimedOut final = 0.
Proof.
  intros Hc Hr Hnew Hurl Hrun.
  destruct (Run_exact s tr elapsed err final Hc Hr Hnew Hrun)
    as [_ _ _ Ht _].
  rewrite Ht. apply tally_none.
  apply (Forall_attempts (λ a, handler_timeout a = false)).
  eapply Forall_impl; [exact Hurl|]. intros ev.
  apply url_Error_not_timeout_attempt.
Qed.

(** The calls of a returning run with a positive concurrency and a request
    count that is not negative number [requests]. *)
Lemma Run_length s tr elapsed err final :
  0 < Concurrency s → 0 <= sRequests s →
  is_int (Concurrency s) → is_int (sRequests s) →
  Report s = NewStressReport →
  Run s tr elapsed = Some (Ok err, final) →
  Z.of_nat (length tr) = sRequests s.
Proof.
  intros Hc Hr Hci Hri Hnew Hrun.
  destruct (Run_counted s tr elapsed err final Hci Hri Hnew Hrun)
    as [_ (ws & Hs & Hlen)].
  destruct (spawn_assigned s ws Hci Hri Hs) as (_ & Ha & _).
  destruct (quot_rem_nonneg (sRequests s) (Concurrency s) Hc Hr) as [Hq Hm].
  pose proof (Z.quot_rem' (sRequests s) (Concurrency s)).
  unfold event in *. rewrite Hlen, Ha. nia.
Qed.

Lemma sequential_attempts a : ∀ ws i,
  Forall (λ ev : nat * attempt, ev.2 = a) (sequential i ws a).
Proof.
  induction ws as [|w ws IH]; intros i; [constructor|].
  simpl. apply Forall_app. split; [|apply IH].
  apply Forall_forall. intros ev Hev.
  by apply elem_of_replicate in Hev as [-> _].
Qed.

(** X8. With a positive concurrency and a request count that is not
    negative, every run whose calls are all answered with status 200
    returns a report with Requests = Succeeded = [requests],
    Failed = TimedOut = 0 and the single bucket 200 ↦ [requests] (no
    bucket at all when [requests] is 0); and such a run exists whenever
    [http.NewRequest] accepts the method and the URL. *)
Theorem all_answered_200 s elapsed :
  0 < Concurrency s → 0 <= sRequests s →
  is_int (Concurrency s) → is_int (sRequests s) →
  Report s = NewStressReport →
  (NewRequest (Method s) (URL s) = None →
   ∃ tr final,
     Run s tr elapsed = Some (Ok None, final)
     ∧ Forall (λ ev : nat * attempt, has_status 200 ev.2 = true) tr)
  ∧ (∀ tr err final,
       Run s tr elapsed = Some (Ok err, final) →
       Forall (λ ev : nat * attempt, has_status 200 ev.2 = true) tr →
       Requests final = sRequests s
       ∧ Succeeded final = sRequests s
       ∧ Failed final = 0
       ∧ TimedOut final = 0
       ∧ StatusRequests final
         = if sRequests s =? 0 then ∅ else {[ 200 := sRequests s ]}).
Proof.
  intros Hc Hr Hci Hri Hnew. split.
  - intros Hnr.
    destruct (Run_can_return s elapsed 200 0 Hnr Hci Hri)
      as (ws & final & _ & Hrun).
    + lia.
    + unfold is_int, min_int, max_int. lia.
    + unfold max_int. lia.
    + exists (sequential 0 ws (responds 200 0)), final. split; [done|].
      eapply Forall_impl; [apply sequential_attempts|].
      by intros ev ->.
  - intros tr err final Hrun Hall.
    pose proof (Run_length s tr elapsed err final Hc Hr Hci Hri Hnew Hrun)
      as Hlen.
    destruct (Run_exact s tr elapsed err final Hci Hri Hnew Hrun)
      as [Rq Su Fa Ti Hb].
    apply (Forall_attempts (λ a, has_status 200 a = true)) in Hall.
    assert (H200 : tally (has_status 200) (snd <$> tr) = sRequests s).
    { rewrite tally_all by done. by rewrite length_fmap. }
    rewrite length_fmap in Rq, Fa.
    assert (Hto : tally handler_timeout (snd <$> tr) = 0).
    { apply tally_none. eapply Forall_impl; [exact Hall|].
      intros a Ha. unfold has_status, handler_timeout in *.
      by destruct (a_err a). }
    assert (Hother : ∀ c, c ≠ 200 → tally (has_status c) (snd <$> tr) = 0).
    { intros c Hne. apply tally_none. eapply Forall_impl; [exact Hall|].
      intros a Ha. unfold has_status in *.
      destruct (a_err a); [done|]. destruct (a_res a) as [x|]; [|done].
      apply Z.eqb_eq in Ha. rewrite Ha. by apply Z.eqb_neq. }
    unfold event in *.
    split; [lia|]. split; [lia|]. split; [lia|]. split; [lia|].
    apply map_eq. intros c. rewrite Hb.
    destruct (Z.eq_dec c 200) as [->|Hne].
    + rewrite H200. destruct (Z.eqb_spec (sRequests s) 0).
      * by rewrite lookup_empty.
      * by rewrite lookup_singleton_eq.
    + rewrite Hother by done. simpl.
      destruct (sRequests s =? 0); [by rewrite lookup_empty|].
      by rewrite lookup_singleton_ne.
Qed.

(* ===================================================================== *)
(** ** The calls of each goroutine *)
(* ===================================================================== *)

Lemma pending_at_insert ws j w' i :
  (j < length ws)%nat →
  pending_at (<[j := w']> ws) i
  = if Nat.eqb j i then pending w' else pending_at ws i.
Proof.
  intros Hj. unfold pending_at. destruct (Nat.eqb_spec j i) as [->|Hne].
  - by rewrite list_lookup_insert_eq.
  - by rewrite list_lookup_insert_ne.
Qed.

Lemma pending_at_all_done ws i : all_done ws = true → pending_at ws i = 0%nat.
Proof.
  unfold all_done, pending_at. intros Hd.
  destruct (ws !! i) as [w|] eqn:Hl; [|done].
  rewrite forallb_forall in Hd. apply pending_done.
  specialize (Hd w). rewrite <- list_elem_of_In in Hd.
  destruct (can_run w); [|done].
  exfalso. apply Bool.diff_false_true. apply Hd.
  by eapply list_elem_of_lookup_2.
Qed.

(** Along an execution every goroutine makes the calls it owes, no more. *)
Lemma exec_calls s tr : ∀ ws r ws' r' i,
  Forall worker_ok ws →
  exec s (Running ws r) tr = Some (Running ws' r') →
  Z.of_nat (pending_at ws' i) + calls_of i tr = Z.of_nat (pending_at ws i).
Proof.
  induction tr as [|ev tr IH]; intros ws r ws' r' i Hw Hex.
  - injection Hex as <- <-. unfold calls_of. simpl. lia.
  - simpl in Hex. destruct (step s ws r ev) as [st|] eqn:Hst; [|discriminate].
    apply step_inv in Hst
      as (w & Hl & Hrun & _ & [(r1 & _ & ->)|(p & _ & ->)]).
    2:{ apply exec_crashed_stops in Hex as [_ ?]. discriminate. }
    pose proof (Forall_lookup_1 _ _ _ _ Hw Hl) as Hwok.
    destruct (pending_advance w Hwok Hrun) as [Hw' Hp].
    assert (Hj : (ev.1 < length ws)%nat) by (by eapply lookup_lt_Some).
    specialize (IH _ _ _ _ i (Forall_insert _ _ _ _ Hw Hw') Hex).
    rewrite pending_at_insert in IH by done.
    unfold calls_of in *. simpl tally.
    destruct (Nat.eqb_spec ev.1 i) as [E|E].
    + assert (Hpi : pending_at ws i = pending w)
        by (unfold pending_at; by rewrite <- E, Hl).
      lia.
    + lia.
Qed.

(** The calls the goroutines of [run] owe at the start. *)
Lemma spawn_pending_at (s : Stress) (i : nat) :
  0 < Concurrency s → 0 <= sRequests s →
  is_int (Concurrency s) → is_int (sRequests s) →
  ∃ ws, spawn s = Ok ws ∧ Forall worker_ok ws
    ∧ Z.of_nat (pending_at ws i)
      = if Z.of_nat i <? Concurrency s
        then sRequests s `div` Concurrency s
        else if Z.of_nat i <? Concurrency s + sRequests s `mod` Concurrency s
             then 1 else 0.
Proof.
  intros Hc Hr Hci Hri.
  pose proof (spawn_workers s ltac:(lia)) as Hs.
  destruct (spawn_assigned s _ Hci Hri Hs) as (Hw & _).
  destruct (quot_rem_nonneg (sRequests s) (Concurrency s) Hc Hr) as [Hq Hm].
  rewrite <- (Z.quot_div_nonneg (sRequests s) (Concurrency s)) by lia.
  rewrite <- (Z.rem_mod_nonneg (sRequests s) (Concurrency s)) by lia.
  eexists. split; [exact Hs|]. split; [exact Hw|].
  unfold pending_at.
  assert (Hlb : length (base_worker s <$> seqZ 0 (Concurrency s))
                = Z.to_nat (Concurrency s))
    by (by rewrite length_fmap, length_seqZ).
  destruct (Z.ltb_spec (Z.of_nat i) (Concurrency s)) as [Hi|Hi].
  - rewrite lookup_app_l by lia.
    rewrite list_lookup_fmap, lookup_seqZ_lt by lia. simpl.
    unfold pending. simpl. rewrite wrap64_id; [lia|].
    unfold is_int, min_int, max_int in *. lia.
  - rewrite lookup_app_r by lia. rewrite Hlb, list_lookup_fmap.
    destruct (Z.ltb_spec (Z.of_nat i)
                (Concurrency s + Z.rem (sRequests s) (Concurrency s)))
      as [Hi2|Hi2].
    + rewrite lookup_seqZ_lt by lia. reflexivity.
    + rewrite lookup_seqZ_ge by lia. reflexivity.
Qed.

(** X9. In a run that returns (positive concurrency, request count not
    negative), each of the first [concurrency] goroutines makes exactly
    floor(requests / concurrency) calls, each of the next
    (requests mod concurrency) goroutines makes exactly one, and no other
    goroutine makes any. *)
Theorem each_worker_makes_its_calls s tr elapsed err final (i : nat) :
  0 < Concurrency s → 0 <= sRequests s →
  is_int (Concurrency s) → is_int (sRequests s) →
  Run s tr elapsed = Some (Ok err, final) →
  calls_of i tr
  = if Z.of_nat i <? Concurrency s
    then sRequests s `div` Concurrency s
    else if Z.of_nat i <? Concurrency s + sRequests s `mod` Concurrency s
         then 1 else 0.
Proof.
  intros Hc Hr Hci Hri Hrun.
  destruct (spawn_pending_at s i Hc Hr Hci Hri) as (ws & Hs & Hw & <-).
  apply Run_returns in Hrun as (_ & ws0 & ws' & r & Hs0 & Hex & Hd & _).
  rewrite Hs in Hs0. injection Hs0 as <-.
  pose proof (exec_calls s tr ws (Report s) ws' r i Hw Hex) as Hcalls.
  rewrite (pending_at_all_done ws' i Hd) in Hcalls. lia.
Qed.

(* ===================================================================== *)
(** ** The verbose flag *)
(* ===================================================================== *)

Lemma exec_set_Verbose s b tr : ∀ st,
  Forall (λ ev : nat * attempt, a_res ev.2 ≠ None) tr →
  exec (set_Verbose b s) st tr = exec s st tr.
Proof.
  induction tr as [|ev tr IH]; intros st Hres; [done|].
  apply Forall_cons in Hres as [Hev Hres]. simpl.
  destruct st as [ws r|p r]; [|done].
  assert (Hstep : step (set_Verbose b s) ws r ev = step s ws r ev).
  { unfold step. destruct (ws !! ev.1) as [w|]; [|done].
    rewrite !runRequest_unfold. simpl.
    destruct (NewRequest (Method s) (URL s)); [done|].
    destruct (a_res ev.2); [|done]. by destruct b, (Verbose s). }
  rewrite Hstep. destruct (step s ws r ev); [by apply IH | done].
Qed.

(** X10. The verbose flag changes the outcome of a run only through
    attempts that came back without a response: along a trace in which
    every attempt has one, [Run] gives the same result and the same report
    whatever the flag. *)
Theorem verbose_is_silent_when_answered s b tr elapsed :
  Forall (λ ev : nat * attempt, a_res ev.2 ≠ None) tr →
  Run (set_Verbose b s) tr elapsed = Run s tr elapsed.
Proof.
  intros Hres. unfold Run, run.
  change (spawn (set_Verbose b s)) with (spawn s).
  change (Report (set_Verbose b s)) with (Report s).
  destruct (spawn s) as [ws|p]; [|done].
  by rewrite exec_set_Verbose.
Qed.

(* ===================================================================== *)
(** ** When a run aborts *)
(* ===================================================================== *)

Lemma HasPrefix_spec : ∀ p s,
  HasPrefix s p = true ↔ ∃ post, s = p +:+ post.
Proof.
  induction p as [|c p IH]; intros s; simpl.
  - split; [intros _; by exists s | done].
  - destruct s as [|d s].
    { split; [done | intros [post E]; discriminate E]. }
    destruct (Ascii.eqb_spec c d) as [->|Hne].
    + rewrite IH. split; intros [post E]; exists post.
      * rewrite E. reflexivity.
      * change (String d p +:+ post) with (String d (p +:+ post)) in E.
        by injection E.
    + split; [done|]. intros [post E].
      change (String c p +:+ post) with (String c (p +:+ post)) in E.
      injection E as E1 _. by destruct Hne.
Qed.

Lemma Contains_spec : ∀ s sub,
  Contains s sub = true ↔ ∃ pre post, s = pre +:+ sub +:+ post.
Proof.
  induction s as [|d s IH]; intros sub; simpl; rewrite orb_true_iff.
  - rewrite HasPrefix_spec. split.
    + intros [[post E]|E]; [|discriminate E]. by exists "", post.
    + intros (pre & post & E). left.
      destruct pre as [|c pre]; [by exists post|].
      change (String c pre +:+ sub +:+ post)
        with (String c (pre +:+ sub +:+ post)) in E.
      discriminate E.
  - rewrite HasPrefix_spec, IH. split.
    + intros [[post E]|(pre & post & E)].
      * by exists "", post.
      * exists (String d pre), post. rewrite E. reflexivity.
    + intros (pre & post & E). destruct pre as [|c pre].
      * left. by exists post.
      * right.
        change (String c pre +:+ sub +:+ post)
          with (String c (pre +:+ sub +:+ post)) in E.
        injection E as _ E. by exists pre, post.
Qed.

(** X11. A merge panics with the error itself exactly when the message of
    the error has the text "connection refused" somewhere inside; every
    other error is merged and the call returns. *)
Theorem merge_is_fatal_iff_refused_inside res e elapsed r :
  (updateReport res (Some e) elapsed r = (Panicked (PanicError e), r)
   ↔ ∃ pre post, Error e = pre +:+ "connection refused" +:+ post)
  ∧ ((∀ pre post, Error e ≠ pre +:+ "connection refused" +:+ post) →
     (updateReport res (Some e) elapsed r).1 = Ok tt).
Proof.
  rewrite <- Contains_spec. split; [split|].
  - intros Hp. destruct (Contains (Error e) "connection refused") eqn:Hc;
      [done|].
    destruct (updateReport_error res e elapsed r Hc) as (r' & E & _).
    rewrite E in Hp. discriminate.
  - apply updateReport_refused.
  - intros Hno. destruct (Contains (Error e) "connection refused") eqn:Hc.
    + apply Contains_spec in Hc as (pre & post & E). by destruct (Hno pre post).
    + by destruct (updateReport_error res e elapsed r Hc) as (r' & -> & _).
Qed.

(** The ways a call can panic. *)
Lemma runRequest_panics s g a r p r' :
  runRequest s g a r = (Panicked p, r') →
  (∃ e, NewRequest (Method s) (URL s) = Some e ∧ p = PanicError e)
  ∨ (NewRequest (Method s) (URL s) = None
     ∧ ((∃ e, a_err a = Some e ∧ p = PanicError e
              ∧ Contains (Error e) "connection refused" = true)
        ∨ (a_res a = None ∧ p = NilDereference
           ∧ (Verbose s = true ∨ a_err a = None)))).
Proof.
  rewrite runRequest_unfold.
  destruct (NewRequest (Method s) (URL s)) as [e0|].
  { intros [= <- <-]. left. by exists e0. }
  intros H0. right. split; [done|]. revert H0.
  destruct (Verbose s) eqn:Hv, (a_res a) eqn:Hres; intros H0;
    try (injection H0 as <- <-; right; by auto);
    apply updateReport_panic in H0
      as [_ [(e & He & -> & Hc)|(Hn & He & ->)]];
    try discriminate; eauto 10.
Qed.

(** Calls that returned went past [http.NewRequest]. *)
Lemma exec_accepted s tr ws r ws' r' :
  exec s (Running ws r) tr = Some (Running ws' r') → tr ≠ [] →
  NewRequest (Method s) (URL s) = None.
Proof.
  destruct tr as [|ev tr]; [done|]. intros Hex _. simpl in Hex.
  destruct (step s ws r ev) as [st|] eqn:Hst; [|discriminate].
  apply step_inv in Hst as (w & _ & _ & _ & [(r1 & Hr & ->)|(p & _ & ->)]).
  - by eapply runRequest_ok_accepted.
  - apply exec_crashed_stops in Hex as [_ ?]. discriminate.
Qed.

(** X12. [Run] aborts in four ways only. With a zero concurrency it
    panics on the division before any call. Otherwise the panic comes
    from the last call of the trace: [http.NewRequest] refused the method
    or the URL, and then that call is the first one and its error is the
    value of the panic; or the error of the call has "connection refused"
    in its message and is the value of the panic; or the call came back
    without a response and the panic is a nil dereference (with the
    verbose flag on, or with no error either). *)
Theorem Run_aborts_in_four_ways s tr elapsed p r :
  Run s tr elapsed = Some (Panicked p, r) →
  (Concurrency s = 0 ∧ p = DivideByZero ∧ tr = [] ∧ r = Report s)
  ∨ ∃ tr0 ev,
      tr = tr0 ++ [ev]
      ∧ ((∃ e, NewRequest (Method s) (URL s) = Some e ∧ p = PanicError e
               ∧ tr0 = [])
         ∨ (NewRequest (Method s) (URL s) = None
            ∧ ((∃ e, a_err ev.2 = Some e ∧ p = PanicError e
                     ∧ Contains (Error e) "connection refused" = true)
               ∨ (a_res ev.2 = None ∧ p = NilDereference
                  ∧ (Verbose s = true ∨ a_err ev.2 = None))))).
Proof.
  intros [(Hs & -> & ->)|(ws & Hs & Hex)]%Run_aborts.
  - left. unfold spawn in Hs.
    destruct (Z.eqb_spec (Concurrency s) 0) as [E|E]; [|discriminate].
    by injection Hs as <-.
  - right. apply exec_crashed in Hex as (tr0 & ev & ws0 & w & -> & H0 & _ & Hr).
    exists tr0, ev. split; [done|].
    apply runRequest_panics in Hr as [(e & He & ->)|Hr]; [|by right].
    left. exists e. repeat split; try done.
    destruct tr0 as [|ev0 tr0]; [done|].
    apply exec_accepted in H0; [|done]. congruence.
Qed.


(** The call that crashes a run is one its goroutine still owed. *)
Lemma exec_crashed_owed s tr : ∀ ws r p r',
  exec s (Running ws r) tr = Some (Crashed p r') →
  ∃ tr0 ev ws0 w,
    tr = tr0 ++ [ev]
    ∧ exec s (Running ws r) tr0 = Some (Running ws0 r')
    ∧ ws0 !! ev.1 = Some w
    ∧ can_run w = true.
Proof.
  induction tr as [|ev tr IH]; intros ws r p r' Hex; [discriminate|].
  simpl in Hex. destruct (step s ws r ev) as [st|] eqn:Hst; [|discriminate].
  pose proof Hst as Hst'.
  apply step_inv in Hst'
    as (w & Hl & Hrun & _ & [(r1 & Hr & ->)|(q & Hr & ->)]).
  - destruct (IH _ _ _ _ Hex) as (tr0 & ev0 & ws0 & w0 & -> & H0 & Hl0 & Hr0).
    exists (ev :: tr0), ev0, ws0, w0. repeat split; try done.
    simpl. by rewrite Hst.
  - apply exec_crashed_stops in Hex as [-> [= <- <-]].
    exists [], ev, ws, w. repeat split; done.
Qed.

(* ===================================================================== *)
(** ** Configurations at the edge *)
(* ===================================================================== *)

(** X14. When [http.NewRequest] refuses the method or the URL, a run that
    makes a call aborts at its very first call, before anything is sent:
    the trace has that one event, the panic carries the error of
    [http.NewRequest] and the report is untouched. Such a run cannot
    return unless it has no call to make. *)
Theorem refused_request_aborts_at_first_call s tr elapsed out e :
  NewRequest (Method s) (URL s) = Some e →
  Run s tr elapsed = Some out → tr ≠ [] →
  (∃ ev, tr = [ev]) ∧ out = (Panicked (PanicError e), Report s).
Proof.
  intros Hnr Hrun Hne.
  destruct (Run_exec s tr elapsed out Hrun Hne) as (ws & st & _ & Hex & Hout).
  destruct tr as [|ev tr]; [done|]. simpl in Hex.
  destruct (step s ws (Report s) ev) as [st1|] eqn:Hst; [|discriminate].
  apply step_inv in Hst as (w & _ & _ & _ & [(r1 & Hr & ->)|(p & Hr & ->)]).
  - apply runRequest_ok_accepted in Hr. congruence.
  - rewrite runRequest_unfold, Hnr in Hr. injection Hr as <-.
    apply exec_crashed_stops in Hex as [-> ->].
    split; [by exists ev | by apply Hout].
Qed.

Lemma calls_of_nonneg i tr : 0 <= calls_of i tr.
Proof. unfold calls_of. apply tally_bounds. Qed.

Lemma assigned_nothing_done ws : assigned ws = 0%nat → all_done ws = true.
Proof.
  unfold assigned, all_done. induction ws as [|w ws IH]; [done|].
  simpl. intros Ha. rewrite IH by lia.
  assert (Hw : can_run w = false).
  { unfold can_run, pending in *. apply Z.ltb_ge. lia. }
  by rewrite Hw.
Qed.

Lemma sequential_nothing a : ∀ ws i,
  assigned ws = 0%nat → sequential i ws a = [].
Proof.
  unfold assigned. induction ws as [|w ws IH]; intros i Ha; [done|].
  simpl in *. assert (pending w = 0%nat) as -> by lia.
  simpl. apply IH. lia.
Qed.

Lemma spawn_nothing (s : Stress) ws :
  0 < Concurrency s → sRequests s <= 0 →
  is_int (Concurrency s) → is_int (sRequests s) →
  spawn s = Ok ws → assigned ws = 0%nat.
Proof.
  intros Hc Hr Hci Hri Hs.
  destruct (Z.eq_dec (sRequests s) 0) as [E|E].
  - destruct (spawn_assigned s ws Hci Hri Hs) as (_ & -> & _).
    rewrite E, Z.quot_0_l, Z.rem_0_l by lia. lia.
  - by apply (negative_requests_issue_nothing s); try lia.
Qed.

(** X15. With a positive concurrency and a request count of zero or less,
    [Run] returns without making any call, and it is the only thing it
    can do; the report keeps Requests = 0 and its three percentages are
    NaN (0 / 0 in float64), not a panic. *)
Theorem nothing_requested_gives_NaN s elapsed :
  0 < Concurrency s → sRequests s <= 0 →
  is_int (Concurrency s) → is_int (sRequests s) →
  Report s = NewStressReport →
  let final := finalize elapsed NewStressReport in
  Run s [] elapsed = Some (Ok None, final)
  ∧ (∀ tr out, Run s tr elapsed = Some out → tr = [] ∧ out = (Ok None, final))
  ∧ Requests final = 0
  ∧ PrimFloat.is_nan (PercentageSucceeded final) = true
  ∧ PrimFloat.is_nan (PercentageFailed final) = true
  ∧ PrimFloat.is_nan (PercentageTimedOut final) = true.
Proof.
  intros Hc Hr Hci Hri Hnew final.
  destruct (spawn s) as [ws|p0] eqn:Hs;
    [|rewrite spawn_workers in Hs by lia; discriminate].
  pose proof (spawn_nothing s ws Hc Hr Hci Hri Hs) as Hnone.
  assert (Hrun : Run s [] elapsed = Some (Ok None, final)).
  { unfold Run, run. rewrite Hs. simpl.
    rewrite (assigned_nothing_done ws Hnone), Hnew. reflexivity. }
  split; [exact Hrun|]. split.
  - intros tr out Hout.
    assert (Htr : tr = []).
    { destruct out as [[e|p] r].
      - destruct (Run_counted s tr elapsed e r Hci Hri Hnew Hout)
          as [_ (ws1 & Hs1 & Hlen)].
        rewrite Hs in Hs1. injection Hs1 as <-.
        rewrite Hnone in Hlen. by destruct tr.
      - apply Run_aborts in Hout as [(Hs1 & _)|(ws1 & Hs1 & Hex)].
        { rewrite Hs in Hs1. discriminate. }
        rewrite Hs in Hs1. injection Hs1 as <-.
        apply exec_crashed_owed in Hex
          as (tr0 & ev & ws0 & w & -> & H0 & Hl & Hcan).
        destruct (spawn_assigned s ws Hci Hri Hs) as (Hw & _).
        pose proof (exec_calls s tr0 ws (Report s) ws0 r ev.1 Hw H0) as Hcalls.
        exfalso. pose proof (calls_of_nonneg ev.1 tr0).
        assert (Hp0 : pending_at ws ev.1 = 0%nat).
        { unfold pending_at. destruct (ws !! ev.1) as [w1|] eqn:Hl1; [|done].
          pose proof (sum_list_with_in _ pending ws
                        (list_elem_of_lookup_2 _ _ _ Hl1)) as Hle.
          unfold assigned in Hnone. lia. }
        (* the crashing goroutine still owed a call, yet nothing was owed *)
        assert (Hp1 : (0 < pending_at ws0 ev.1)%nat).
        { unfold pending_at. rewrite Hl. unfold can_run, pending in *.
          apply Z.ltb_lt in Hcan. lia. }
        lia. }
    subst tr. split; [done|]. rewrite Hrun in Hout. by injection Hout as <-.
  - repeat split; vm_compute; reflexivity.
Qed.

(** X16. A negative concurrency does not stop [run]: it starts none of the
    looping goroutines and only the single-call ones, so a run that
    returns has made max(0, requests % concurrency) calls, which is fewer
    than |concurrency|, and the report counts that many requests. *)
Theorem negative_concurrency_runs_the_remainder s tr elapsed err final :
  Concurrency s < 0 →
  is_int (Concurrency s) → is_int (sRequests s) →
  Report s = NewStressReport →
  Run s tr elapsed = Some (Ok err, final) →
  Z.of_nat (length tr) = Z.max 0 (Z.rem (sRequests s) (Concurrency s))
  ∧ Z.of_nat (length tr) < - Concurrency s
  ∧ Requests final = Z.of_nat (length tr).
Proof.
  intros Hc Hci Hri Hnew Hrun.
  destruct (Run_counted s tr elapsed err final Hci Hri Hnew Hrun)
    as [[Rq _ _ _ _ _ _] (ws & Hs & Hlen)].
  destruct (spawn_assigned s ws Hci Hri Hs) as (_ & Ha & _).
  pose proof (Z.rem_bound_abs (sRequests s) (Concurrency s) ltac:(lia)).
  unfold event in *. rewrite Hlen, Ha in *.
  replace (Z.to_nat (Concurrency s)) with 0%nat in * by lia.
  repeat split; lia.
Qed.

(* ===================================================================== *)
(** ** Running the same load test again *)
(* ===================================================================== *)

(** X17. [Run] does not reset the report. A second run on the same object
    adds its calls to what the first run left: Requests, Succeeded, Failed
    and every bucket grow by the tallies of the second run, and
    SlowestTime is the maximum over both runs (as long as the calls of
    both runs together fit an [int]). *)
Theorem second_run_accumulates s tr1 e1 err1 f1 tr2 e2 err2 f2 :
  is_int (Concurrency s) → is_int (sRequests s) →
  Report s = NewStressReport →
  Z.of_nat (length tr1) + Z.of_nat (length tr2) <= max_int →
  Run s tr1 e1 = Some (Ok err1, f1) →
  Run (set_Report f1 s) tr2 e2 = Some (Ok err2, f2) →
  Requests f2 = Requests f1 + Z.of_nat (length tr2)
  ∧ Succeeded f2 = Succeeded f1 + tally (has_status 200) (snd <$> tr2)
  ∧ Failed f2
    = Failed f1 + (Z.of_nat (length tr2) - tally (has_status 200) (snd <$> tr2))
  ∧ (∀ c, map_get (StatusRequests f2) c
          = map_get (StatusRequests f1) c + tally (has_status c) (snd <$> tr2))
  ∧ SlowestTime f2 = Z.max (SlowestTime f1) (max_elapsed (snd <$> tr2)).
Proof.
  intros Hc Hr Hnew Hbound Hrun1 Hrun2.
  pose proof (Run_exact s tr1 e1 err1 f1 Hc Hr Hnew Hrun1) as Hex1.
  pose proof (Run_slowest s tr1 e1 err1 f1 Hnew Hrun1) as Hsl1.
  apply Run_returns in Hrun2 as (_ & ws & ws' & r & _ & Hex & _ & ->).
  simpl in Hex. apply exec_merge_all in Hex.
  assert (Hb : Z.of_nat (length (snd <$> tr1))
               + Z.of_nat (length (snd <$> tr2)) <= max_int)
    by (by rewrite !length_fmap).
  destruct (exact_merge_all _ f1 r (snd <$> tr1) Hex1 Hb Hex)
    as [Rq Su Fa _ Hbk].
  destruct Hex1 as [Rq1 Su1 Fa1 _ Hbk1].
  rewrite length_app, !length_fmap in Rq, Fa. rewrite length_fmap in Rq1, Fa1.
  rewrite tally_app in Su, Fa.
  assert (Hs0 : 0 <= SlowestTime f1).
  { rewrite Hsl1. apply max_elapsed_bounds. }
  simpl. unfold event in *.
  split; [lia|]. split; [lia|]. split; [lia|]. split.
  - intros c. unfold map_get. rewrite Hbk, Hbk1, tally_app.
    pose proof (tally_bounds (has_status c) (snd <$> tr1)).
    pose proof (tally_bounds (has_status c) (snd <$> tr2)).
    destruct (Z.eqb_spec (tally (has_status c) (snd <$> tr1)) 0);
      destruct (Z.eqb_spec (tally (has_status c) (snd <$> tr1)
                            + tally (has_status c) (snd <$> tr2)) 0);
      simpl; lia.
  - exact (merge_all_slowest _ f1 r Hs0 Hex).
Qed.

End Program.

(* ===================================================================== *)
(** ** The program on concrete inputs *)
(* ===================================================================== *)

(** From here on [http.NewRequest] is [sample_HTTP]. *)
#[local] Existing Instance sample_HTTP.

Lemma succeeded_plus_failed_is_requests_witness :
  let s := NewStress target "GET" 2 4 1 true false in
  let tr := [(0%nat, responds 200 3); (1%nat, responds 500 2);
             (1%nat, fails closed 9); (0%nat, responds 200 7)] in
  let final := report_of (Run s tr 12) in
  Succeeded final + Failed final = Requests final
  ∧ Requests final = 4
  ∧ Succeeded final = 2.
Proof.
  intros s tr final.
  destruct (succeeded_plus_failed_is_requests s tr 12 None final)
    as (H1 & H2 & _).
  - unfold is_int, min_int, max_int. simpl. lia.
  - unfold is_int, min_int, max_int. simpl. lia.
  - reflexivity.
  - vm_compute. reflexivity.
  - split; [exact H1|]. split; [exact H2|]. vm_compute. reflexivity.
Defined.

Lemma failed_iff_status_not_200_witness :
  let r := NewStressReport in
  (Failed (updateReport (Some {| StatusCode := 204 |}) None 3 r).2 = 1)
  ∧ (Succeeded (updateReport (Some {| StatusCode := 200 |}) None 3 r).2 = 1)
  ∧ (Failed (updateReport None (Some closed) 3 r).2 = 1).
Proof.
  intros r. split; [|split].
  - destruct (failed_iff_status_not_200 {| StatusCode := 204 |} 3 r)
      as (_ & [_ H] & _).
    rewrite H; [reflexivity | simpl; lia].
  - destruct (failed_iff_status_not_200 {| StatusCode := 200 |} 3 r)
      as (_ & _ & [_ H] & _).
    rewrite H; reflexivity.
  - destruct (failed_iff_status_not_200 {| StatusCode := 200 |} 3 r)
      as (_ & _ & _ & _ & _ & H).
    destruct (H None closed) as (_ & -> & _); reflexivity.
Defined.

Lemma histogram_sums_to_answered_witness :
  let s := NewStress target "GET" 2 4 1 true false in
  let tr := [(0%nat, responds 200 3); (1%nat, responds 500 2);
             (1%nat, fails client_timeout 1000); (0%nat, responds 200 7)] in
  let final := report_of (Run s tr 1012) in
  hist_total (StatusRequests final) = 3
  ∧ StatusRequests final = {[ 200 := 2; 500 := 1 ]}.
Proof.
  intros s tr final.
  destruct (histogram_sums_to_answered s tr 1012 None final) as (H1 & _).
  - unfold is_int, min_int, max_int. simpl. lia.
  - unfold is_int, min_int, max_int. simpl. lia.
  - reflexivity.
  - vm_compute. reflexivity.
  - split; [exact H1|]. vm_compute. reflexivity.
Defined.



Lemma Run_returns_nil_witness :
  let s := NewStress target "GET" 2 4 1 true false in
  let tr := [(0%nat, responds 200 3); (1%nat, responds 500 2);
             (1%nat, fails closed 9); (0%nat, responds 200 7)] in
  match Run s tr 12 with
  | Some (Ok err, _) => err = None
  | _ => False
  end
  ∧ ∃ p r, Run s [(0%nat, fails refused 1)] 1 = Some (Panicked p, r).
Proof.
  intros s tr.
  pose (final := report_of (Run s tr 12)).
  assert (Hrun : Run s tr 12 = Some (Ok None, final))
    by (vm_compute; reflexivity).
  split.
  - rewrite Hrun.
    exact (proj1 (Run_returns_nil s tr 12) None final Hrun).
  - destruct (proj2 (Run_returns_nil s [(0%nat, fails refused 1)] 1)
                (0%nat, fails refused 1) refused
                (Panicked (PanicError refused), NewStressReport))
      as (p & r & Hout).
    + by apply list_elem_of_singleton.
    + reflexivity.
    + vm_compute. reflexivity.
    + vm_compute. reflexivity.
    + exists p, r. rewrite <- Hout. vm_compute. reflexivity.
Defined.

Lemma slowest_time_is_maximum_witness :
  SlowestTime (report_of (Run demo demo_trace 12)) = 9.
Proof.
  destruct (slowest_time_is_maximum demo demo_trace 12 None
              (report_of (Run demo demo_trace 12))) as (H & _).
  - reflexivity.
  - vm_compute. reflexivity.
  - rewrite H. vm_compute. reflexivity.
Defined.

Lemma fastest_time_is_minimum_without_zero_witness :
  FastestTime (report_of (Run demo demo_trace 12)) = 2.
Proof.
  destruct (fastest_time_is_minimum_without_zero demo demo_trace 12 None
              (report_of (Run demo demo_trace 12))) as (_ & ev & _ & _).
  - reflexivity.
  - discriminate.
  - repeat constructor.
  - vm_compute. reflexivity.
  - vm_compute. reflexivity.
Defined.

Lemma fastest_time_is_a_recorded_time_witness :
  let tr := [(0%nat, responds 200 0); (0%nat, responds 200 5)] in
  let final := report_of (Run (NewStress target "GET" 1 2 1 true false) tr 5) in
  0 <= FastestTime final <= SlowestTime final.
Proof.
  intros tr final.
  destruct (fastest_time_is_a_recorded_time
              (NewStress target "GET" 1 2 1 true false) tr 5 None final)
    as (_ & H).
  - reflexivity.
  - discriminate.
  - vm_compute. reflexivity.
  - exact H.
Defined.

Lemma counters_are_tallies_witness :
  let final := report_of (Run demo demo_trace 12) in
  Succeeded final = 2 ∧ Failed final = 2 ∧ TimedOut final = 0.
Proof.
  intros final.
  destruct (counters_are_tallies demo demo_trace 12 None final)
    as (H1 & H2 & H3).
  - unfold is_int, min_int, max_int. simpl. lia.
  - unfold is_int, min_int, max_int. simpl. lia.
  - reflexivity.
  - vm_compute. reflexivity.
  - rewrite H1, H2, H3. vm_compute. auto.
Defined.

Lemma histogram_counts_each_status_witness :
  let final := report_of (Run demo demo_trace 12) in
  StatusRequests final !! 200 = Some 2 ∧ StatusRequests final !! 404 = None.
Proof.
  intros final.
  destruct (histogram_counts_each_status demo demo_trace 12 None final 404)
    as ([_ H] & _).
  - unfold is_int, min_int, max_int. simpl. lia.
  - unfold is_int, min_int, max_int. simpl. lia.
  - reflexivity.
  - vm_compute. reflexivity.
  - split; [vm_compute; reflexivity|]. apply H. repeat constructor.
Defined.

Lemma counters_ignore_interleaving_witness :
  let f1 := report_of (Run demo demo_trace 12) in
  let f2 := report_of (Run demo demo_trace' 30) in
  Succeeded f1 = Succeeded f2 ∧ StatusRequests f1 = StatusRequests f2.
Proof.
  intros f1 f2.
  destruct (counters_ignore_interleaving demo demo demo_trace demo_trace'
              12 30 None None f1 f2) as (_ & H2 & _ & _ & H5 & _).
  - unfold is_int, min_int, max_int. simpl. lia.
  - unfold is_int, min_int, max_int. simpl. lia.
  - unfold is_int, min_int, max_int. simpl. lia.
  - unfold is_int, min_int, max_int. simpl. lia.
  - reflexivity.
  - reflexivity.
  - vm_compute. reflexivity.
  - vm_compute. reflexivity.
  - simpl. etrans; [apply perm_swap|]. do 2 apply perm_skip. apply perm_swap.
  - split; [exact H2 | exact H5].
Defined.

Lemma client_errors_leave_TimedOut_zero_witness :
  let tr := [(0%nat, fails client_timeout 1000); (1%nat, responds 200 2);
             (1%nat, fails client_timeout 1000); (0%nat, fails closed 7)] in
  let final := report_of (Run demo tr 2000) in
  TimedOut final = 0 ∧ Failed final = 3.
Proof.
  intros tr final. split.
  - apply (client_errors_leave_TimedOut_zero demo tr 2000 None final).
    + unfold is_int, min_int, max_int. simpl. lia.
    + unfold is_int, min_int, max_int. simpl. lia.
    + reflexivity.
    + repeat constructor; simpl; intros e [= <-];
        solve [ by exists "Get", target,
                  "context deadline exceeded (Client.Timeout exceeded while awaiting headers)",
                  true
              | by exists "Get", target, "EOF", false ].
    + vm_compute. reflexivity.
  - vm_compute. reflexivity.
Defined.

Lemma all_answered_200_witness :
  let s := NewStress target "GET" 5 5 1 true false in
  let tr := [(0%nat, responds 200 3); (1%nat, responds 200 2);
             (2%nat, responds 200 9); (3%nat, responds 200 7);
             (4%nat, responds 200 1)] in
  let final := report_of (Run s tr 12) in
  Succeeded final = 5 ∧ Failed final = 0
  ∧ StatusRequests final = {[ 200 := 5 ]}.
Proof.
  intros s tr final.
  destruct (all_answered_200 s 12) as (Hex & H).
  - simpl. lia.
  - simpl. lia.
  - unfold is_int, min_int, max_int. simpl. lia.
  - unfold is_int, min_int, max_int. simpl. lia.
  - reflexivity.
  - destruct (Hex eq_refl) as (tr0 & final0 & _ & _).
    destruct (H tr None final) as (_ & H2 & H3 & _ & H5).
    + vm_compute. reflexivity.
    + repeat constructor.
    + split; [exact H2|]. split; [exact H3 | exact H5].
Defined.

Lemma each_worker_makes_its_calls_witness :
  let s := NewStress target "GET" 2 5 1 true false in
  let tr := [(0%nat, responds 200 3); (2%nat, responds 200 4);
             (1%nat, responds 500 2); (1%nat, fails closed 9);
             (0%nat, responds 200 7)] in
  calls_of 0 tr = 2 ∧ calls_of 2 tr = 1 ∧ calls_of 3 tr = 0.
Proof.
  intros s tr.
  assert (Hrun : Run s tr 12 = Some (Ok None, report_of (Run s tr 12)))
    by (vm_compute; reflexivity).
  assert (H2 : is_int 2) by (unfold is_int, min_int, max_int; lia).
  assert (H5 : is_int 5) by (unfold is_int, min_int, max_int; lia).
  split; [|split].
  - rewrite (each_worker_makes_its_calls s tr 12 None _ 0
               ltac:(simpl; lia) ltac:(simpl; lia) H2 H5 Hrun).
    reflexivity.
  - rewrite (each_worker_makes_its_calls s tr 12 None _ 2
               ltac:(simpl; lia) ltac:(simpl; lia) H2 H5 Hrun).
    reflexivity.
  - rewrite (each_worker_makes_its_calls s tr 12 None _ 3
               ltac:(simpl; lia) ltac:(simpl; lia) H2 H5 Hrun).
    reflexivity.
Defined.

Lemma verbose_is_silent_when_answered_witness :
  let tr := [(0%nat, responds 200 3); (1%nat, responds 500 2);
             (1%nat, responds 404 9); (0%nat, responds 200 7)] in
  Run (set_Verbose true demo) tr 12 = Run demo tr 12.
Proof.
  intros tr. apply verbose_is_silent_when_answered.
  repeat constructor; discriminate.
Defined.

Lemma merge_is_fatal_iff_refused_inside_witness :
  updateReport None (Some refused) 1 NewStressReport
  = (Panicked (PanicError refused), NewStressReport).
Proof.
  apply (proj1 (merge_is_fatal_iff_refused_inside None refused 1
                  NewStressReport)).
  exists ("Get " +:+ quote +:+ target +:+ quote
          +:+ ": dial tcp 127.0.0.1:8080: connect: "), "".
  reflexivity.
Defined.

Lemma Run_aborts_in_four_ways_witness :
  (∃ tr0 ev, [(0%nat, responds 200 3); (1%nat, fails refused 1)] = tr0 ++ [ev])
  ∧ Run (NewStress ":bad url" "GET" 1 1 1 true false)
        [(0%nat, responds 200 3)] 5
    = Some (Panicked (PanicError (parse_error ":bad url")), NewStressReport).
Proof.
  split.
  - destruct (Run_aborts_in_four_ways demo
                [(0%nat, responds 200 3); (1%nat, fails refused 1)] 5
                (PanicError refused)
                (updateReport (Some {| StatusCode := 200 |}) None 3
                   NewStressReport).2)
      as [(H0 & _)|(tr0 & ev & E & _)].
    + vm_compute. reflexivity.
    + discriminate H0.
    + by exists tr0, ev.
  - vm_compute. reflexivity.
Defined.


Lemma refused_request_aborts_at_first_call_witness :
  let s := NewStress target "BAD METHOD" 2 4 1 true false in
  Run s [(1%nat, responds 200 3)] 5
  = Some (Panicked (PanicError (method_error "BAD METHOD")), NewStressReport).
Proof.
  intros s.
  destruct (refused_request_aborts_at_first_call s [(1%nat, responds 200 3)] 5
              (Panicked (PanicError (method_error "BAD METHOD")),
               NewStressReport)
              (method_error "BAD METHOD")) as (_ & H0).
  - vm_compute. reflexivity.
  - vm_compute. reflexivity.
  - discriminate.
  - vm_compute. reflexivity.
Defined.

Lemma nothing_requested_gives_NaN_witness :
  let s := NewStress target "GET" 3 0 1 true false in
  Run s [] 7 = Some (Ok None, finalize 7 NewStressReport)
  ∧ Run s [(0%nat, responds 200 1)] 7 = None.
Proof.
  intros s.
  destruct (nothing_requested_gives_NaN s 7) as (H1 & H2 & _).
  - simpl. lia.
  - simpl. lia.
  - unfold is_int, min_int, max_int. simpl. lia.
  - unfold is_int, min_int, max_int. simpl. lia.
  - reflexivity.
  - split; [exact H1|].
    destruct (Run s [(0%nat, responds 200 1)] 7) as [out|] eqn:E; [|done].
    by destruct (H2 _ _ E) as [? _].
Defined.

Lemma negative_concurrency_runs_the_remainder_witness :
  let s := NewStress target "GET" (-3) 10 1 true false in
  let tr := [(0%nat, responds 200 4)] in
  Z.of_nat (length tr) = 1 ∧ Requests (report_of (Run s tr 4)) = 1.
Proof.
  intros s tr.
  destruct (negative_concurrency_runs_the_remainder s tr 4 None
              (report_of (Run s tr 4))) as (H1 & _ & H3).
  - simpl. lia.
  - unfold is_int, min_int, max_int. simpl. lia.
  - unfold is_int, min_int, max_int. simpl. lia.
  - reflexivity.
  - vm_compute. reflexivity.
  - split; [reflexivity | exact H3].
Defined.

Lemma second_run_accumulates_witness :
  let f1 := report_of (Run demo demo_trace 12) in
  let f2 := report_of (Run (set_Report f1 demo) demo_trace' 30) in
  Requests f2 = 8 ∧ Succeeded f2 = 4 ∧ map_get (StatusRequests f2) 500 = 2.
Proof.
  intros f1 f2.
  destruct (second_run_accumulates demo demo_trace 12 None f1
              demo_trace' 30 None f2) as (H1 & H2 & _ & H4 & _).
  - unfold is_int, min_int, max_int. simpl. lia.
  - unfold is_int, min_int, max_int. simpl. lia.
  - reflexivity.
  - unfold max_int. simpl. lia.
  - vm_compute. reflexivity.
  - vm_compute. reflexivity.
  - rewrite H1, H2, H4. vm_compute. auto.
Defined.

(* ===================================================================== *)
(** ** Where the program departs from the specification *)
(* ===================================================================== *)

(** C2 on the program. After merging an attempt of 0 ms and then one of
    5 ms, FastestTime is 5: the test [FastestTime == 0] takes the recorded
    0 ms for a report without a first value, and the next merge
    overwrites it. *)
Theorem fastest_time_forgets_zero :
  let s := NewStress target "GET" 1 2 1 true false in
  let tr := [(0%nat, responds 200 0); (0%nat, responds 200 5)] in
  ∃ final, Run s tr 5 = Some (Ok None, final)
           ∧ FastestTime final = 5
           ∧ SlowestTime final = 5
           ∧ FastestTime (merge_all [responds 200 0] NewStressReport).2 = 0.
Proof.
  intros s tr. exists (report_of (Run s tr 5)).
  split; [vm_compute; reflexivity|].
  split; [vm_compute; reflexivity|].
  split; vm_compute; reflexivity.
Qed.

(** C3 on the program. The error of an expired client timeout answers
    true to [Timeout()], yet merging it increments Failed only: its
    message is not the message of [http.ErrHandlerTimeout]. *)
Theorem client_timeout_not_counted :
  let out := updateReport None (Some client_timeout) 1000 NewStressReport in
  Timeout client_timeout = true
  ∧ out.1 = Ok tt
  ∧ Failed out.2 = 1
  ∧ TimedOut out.2 = 0.
Proof. vm_compute. repeat split; reflexivity. Qed.

(** C4 on the program. With verbose on, an attempt that failed without a
    response makes [runRequest] panic on [res.StatusCode] before the merge:
    nothing is recorded and the run aborts. *)
Theorem verbose_failure_crashes :
  let s := NewStress target "GET" 1 2 1 true true in
  Contains (Error closed) "connection refused" = false
  ∧ runRequest s 1 (fails closed 3) NewStressReport
    = (Panicked NilDereference, NewStressReport)
  ∧ Run s [(0%nat, fails closed 3)] 3
    = Some (Panicked NilDereference, NewStressReport)
  ∧ Run s [(0%nat, fails closed 3); (0%nat, responds 200 4)] 7 = None.
Proof. vm_compute. repeat split; reflexivity. Qed.

(** The percentages of the two-and-two scenario are exact. *)
Example percentages_two_and_two :
  let s := NewStress target "GET" 2 4 1 true false in
  let tr := [(0%nat, responds 200 3); (1%nat, responds 500 2);
             (1%nat, responds 500 9); (0%nat, responds 200 7)] in
  let final := report_of (Run s tr 12) in
  PercentageSucceeded final = float64 50
  ∧ PercentageFailed final = float64 50
  ∧ PrimFloat.add (PercentageSucceeded final) (PercentageFailed final)
    = float64 100.
Proof. vm_compute. repeat split; reflexivity. Qed.

(** With one success in three requests the two rounded percentages add up
    to the binary64 number just below 100, not to 100. *)
Example percentages_one_and_two :
  let s := NewStress target "GET" 1 3 1 true false in
  let tr := [(0%nat, responds 200 3); (0%nat, responds 500 2);
             (0%nat, responds 500 9)] in
  let final := report_of (Run s tr 14) in
  PrimFloat.add (PercentageSucceeded final) (PercentageFailed final)
  = PrimFloat.next_down (float64 100).
Proof. vm_compute. reflexivity. Qed.

(** Up to 64 requests, however they split into successes and failures, the
    two percentages add up to 100 within 2^-46, one unit in the last place
    of 100. *)
Example percentages_add_up_to_64 :
  add_up_to (PrimFloat.div (float64 1) (float64 (2 ^ 46))) 64 = true.
Proof. vm_compute. reflexivity. Qed.
